(** * Jira-Scraper-ETL: the extraction core of [src/extract.py]

    A shallow embedding of the checkpoint store ([load_checkpoint],
    [save_checkpoint]), the incremental query, the retry policy and the
    paginated fetch loop ([fetch_issues_for_project]), and of their callers
    ([fetch_all_projects], and [main] and [clean_data] of [src/main.py]),
    followed by the properties the specification states about them and by
    further properties of the code: the retry budget, the statuses the loop
    does not handle, the cursor, the independence of projects, the
    pipeline and the cleaning of checkpoints.

    Conventions of the model.
    - Python integers are [Z]; [backoff_base ** attempt] is [Z.pow].
    - A file on disk is represented by what reading it yields: the decoded
      value, or the exception the read raises ([stored]).  The three kinds
      of file the module touches are kept in three maps, keyed by the
      project (and the page offset): their paths are injective in these
      keys.  Writing is taken to succeed: a path at which it cannot (a
      directory in the place of the file, a file that may not be written)
      is not represented.  A write replaces content that could not be
      decoded; it does not make readable a JSON checkpoint that could not
      be opened for reading.  The legacy text file and the raw pages are
      taken to be readable once written.
    - A page of the remote tells an absent key [total] from a [null] one,
      as [data.get("total", total)] does.
    - The remote endpoint is a script of replies, one per request; the run
      consumes them in order and is [Pending] when the script runs out.
    - Requests, sleeps and [logger.error] calls are recorded, in order, in
      the [trace] of the world.  Console output and the info, warning and
      debug log lines are not modelled; the dynamic tail of an error line
      (the text of the exception) is left out of its message.
    - A fetched record is the pair of the two fields the loop reads for
      checkpointing: its key and its [updated] string. *)

From Stdlib Require Import ZArith Ascii DecimalString.
From stdpp Require Import gmap strings list.

Local Open Scope Z_scope.

(** ** Exceptions *)

Inductive exn :=
  | IOError
  | ValueError
  | JSONDecodeError
  | UnicodeDecodeError
  | Timeout
  | ConnectionError
  | HTTPError (status : Z)
  | RuntimeError (msg : string).

(** The class hierarchy the [except] clauses of the module rely on:
    [json.JSONDecodeError] and [UnicodeDecodeError] derive from
    [ValueError]; the [requests] exceptions derive from
    [RequestException], which derives from [IOError]. *)
Definition is_JSONDecodeError (e : exn) : bool :=
  match e with JSONDecodeError => true | _ => false end.

Definition is_ValueError (e : exn) : bool :=
  match e with
  | ValueError | JSONDecodeError | UnicodeDecodeError => true
  | _ => false
  end.

Definition is_Timeout (e : exn) : bool :=
  match e with Timeout => true | _ => false end.

Definition is_RequestException (e : exn) : bool :=
  match e with Timeout | ConnectionError | HTTPError _ => true | _ => false end.

Definition is_IOError (e : exn) : bool :=
  match e with IOError => true | _ => is_RequestException e end.

Inductive res (A : Type) :=
  | Ret (a : A)
  | Raise (e : exn).
Arguments Ret {A} a.
Arguments Raise {A} e.

(** ** Data model *)

(** The checkpoint dictionary; a field is [None] when the key is absent
    (for [last_updated] also when it is [null]). *)
Record checkpoint := Checkpoint {
  start_at : option Z;
  last_updated : option string
}.

(** [checkpoint.get("start_at", 0)] and [checkpoint.get("last_updated")]. *)
Definition get_start_at (ck : checkpoint) : Z := default 0 (start_at ck).
Definition get_last_updated (ck : checkpoint) : option string := last_updated ck.

(** The value [load_checkpoint] returns when nothing usable is stored. *)
Definition zero_checkpoint : checkpoint := Checkpoint (Some 0) None.

Record issue := Issue {
  key : option string;
  updated : option string       (* issue.get("fields", {}).get("updated") *)
}.

(** A key of a JSON object as [dict.get] with a default tells it apart:
    absent (the default is taken), present with the value [null] (which
    Python reads as [None], and which the default does not replace), or
    present with a value. *)
Inductive entry (A : Type) :=
  | Absent
  | Null
  | Given (a : A).
Arguments Absent {A}.
Arguments Null {A}.
Arguments Given {A} a.

(** The body of a 200 reply: [data.get("issues", [])], where an absent key
    and [null] both leave the loop at [if not issues], and the key
    [total], read by [data.get("total", total)]. *)
Record page := Page {
  issues : option (list issue);
  total : entry Z
}.

(** [data.get("total", total)]: the total of the page when it has the key,
    [None] for a [null] there, and the total known before when the key is
    absent. *)
Definition get_total (data : page) (known : option Z) : option Z :=
  match total data with
  | Absent => known
  | Null => None
  | Given t => Some t
  end.

Inductive reply :=
  | Response (status : Z) (data : page)
  | Fails (e : exn).                       (* requests.get raises e *)

(** The configuration dictionary, one optional entry per recognised key. *)
Record config := Config {
  max_results : option Z;
  polite_delay_seconds : option Z;
  rate_limit_sleep_seconds : option Z;
  retry_backoff_base : option Z;
  max_retries : option Z;
  incremental : option bool;
  lookback_days : option Z
}.

Definition cfg_max_results (cfg : config) : Z := default 50 (max_results cfg).
Definition cfg_polite_delay (cfg : config) : Z := default 2 (polite_delay_seconds cfg).
Definition cfg_rate_limit_sleep (cfg : config) : Z := default 30 (rate_limit_sleep_seconds cfg).
Definition cfg_backoff_base (cfg : config) : Z := default 2 (retry_backoff_base cfg).
Definition cfg_max_retries (cfg : config) : Z := default 5 (max_retries cfg).
Definition cfg_incremental (cfg : config) : bool := default false (incremental cfg).
Definition cfg_lookback_days (cfg : config) : Z := default 7 (lookback_days cfg).

(** ** The world: files, and the trace of observable actions *)

Inductive stored (A : Type) :=
  | Holds (a : A)          (* reading the file yields a *)
  | Broken (e : exn).      (* opening or reading the file raises e *)
Arguments Holds {A} a.
Arguments Broken {A} e.

Inductive event :=
  | Request (jql : string) (maxResults startAt : Z)
  | Sleep (seconds : Z)
  | LogError (msg : string).

Record world := World {
  ckpt_json : gmap string (stored checkpoint);    (* data/checkpoints/<project>.json *)
  ckpt_txt : gmap string (stored Z);              (* data/checkpoints/<project>.txt *)
  raw_pages : gmap (string * Z) (list issue);     (* data/raw/<project>_<start_at>.json *)
  trace : list event
}.

Definition emit (ev : event) (w : world) : world :=
  World (ckpt_json w) (ckpt_txt w) (raw_pages w) (trace w ++ [ev]).

(** ** A state and exception monad over the world *)

Definition M (A : Type) : Type := world → res A * world.

Definition ret {A} (a : A) : M A := λ w, (Ret a, w).
Definition raise {A} (e : exn) : M A := λ w, (Raise e, w).
Definition bind {A B} (m : M A) (k : A → M B) : M B :=
  λ w, match m w with
       | (Ret a, w') => k a w'
       | (Raise e, w') => (Raise e, w')
       end.

Notation "'let*' x ':=' m 'in' k" := (bind m (λ x, k))
  (at level 10, x pattern, m at level 100, k at level 200, only parsing).
Notation "m ';;' k" := (bind m (λ _, k))
  (at level 100, k at level 200, right associativity, only parsing).

Definition log_error (msg : string) : M unit := λ w, (Ret tt, emit (LogError msg) w).

(** [time.sleep] rejects a negative duration with [ValueError]. *)
Definition sleep (seconds : Z) : M unit :=
  λ w, if seconds <? 0 then (Raise ValueError, w) else (Ret tt, emit (Sleep seconds) w).

Definition read_json (project : string) : M (option (stored checkpoint)) :=
  λ w, (Ret (ckpt_json w !! project), w).

Definition read_legacy (project : string) : M (option (stored Z)) :=
  λ w, (Ret (ckpt_txt w !! project), w).

(** What the JSON record is after [json.dump] wrote [ck] to it.  Content
    that could not be decoded is replaced.  A record that could not be
    opened for reading ([IOError]) is no more readable than before:
    writing to a file does not change who may read it. *)
Definition rewritten (before : option (stored checkpoint)) (ck : checkpoint)
    : stored checkpoint :=
  match before with
  | Some (Broken e) => if is_IOError e then Broken e else Holds ck
  | _ => Holds ck
  end.

Definition write_json (project : string) (ck : checkpoint) : M unit :=
  λ w, (Ret tt, World (<[project := rewritten (ckpt_json w !! project) ck]> (ckpt_json w))
                      (ckpt_txt w) (raw_pages w) (trace w)).

Definition write_legacy (project : string) (n : Z) : M unit :=
  λ w, (Ret tt, World (ckpt_json w) (<[project := Holds n]> (ckpt_txt w)) (raw_pages w) (trace w)).

(** Python's [str] on an integer. *)
Definition str (z : Z) : string := NilZero.string_of_int (Z.to_int z).

(** ** Checkpoint store *)

Definition save_raw_issues (project : string) (start_at : Z) (issues : list issue) : M unit :=
  λ w, (Ret tt, World (ckpt_json w) (ckpt_txt w)
                      (<[(project, start_at) := issues]> (raw_pages w)) (trace w)).

Definition load_checkpoint (project : string) : M checkpoint :=
  (* first the JSON checkpoint *)
  let* json_file := read_json project in
  let* loaded :=
    match json_file with
    | Some (Holds ck) => ret (Some ck)
    | Some (Broken e) =>
        if is_JSONDecodeError e || is_IOError e
        then log_error ("Error loading JSON checkpoint for " +:+ project) ;; ret None
        else raise e
    | None => ret None
    end in
  match loaded with
  | Some ck => ret ck
  | None =>
      (* then the legacy text checkpoint *)
      let* legacy_file := read_legacy project in
      let* legacy :=
        match legacy_file with
        | Some (Holds n) => ret (Some (Checkpoint (Some n) None))
        | Some (Broken e) =>
            if is_ValueError e || is_IOError e
            then log_error ("Error loading legacy checkpoint for " +:+ project) ;; ret None
            else raise e
        | None => ret None
        end in
      match legacy with
      | Some ck => ret ck
      | None => ret zero_checkpoint
      end
  end.

Definition save_checkpoint (project : string) (start_at : Z) (last_updated : option string)
    : M unit :=
  (* if last_updated is not provided, keep the existing value *)
  let* last_updated :=
    match last_updated with
    | None => let* checkpoint := load_checkpoint project in
              ret (get_last_updated checkpoint)
    | Some _ => ret last_updated
    end in
  write_json project (Checkpoint (Some start_at) last_updated) ;;
  write_legacy project start_at.

(** ** Incremental query *)

(** Python truthiness of an optional string: [None] and the empty string
    are false. *)
Definition truthy (s : option string) : bool :=
  match s with
  | Some (String _ _) => true
  | _ => false
  end.

(** [s.split('T')[0]]: the text before the first ['T']. *)
Fixpoint split_T_head (s : string) : string :=
  match s with
  | EmptyString => EmptyString
  | String c s' => if Ascii.eqb c "T"%char then EmptyString else String c (split_T_head s')
  end.

Section Clock.

(** [strftime_ymd d] stands for [strftime("%Y-%m-%d")] of the date with day
    number [d]; [today] below is the day number of [datetime.now()], so
    that [datetime.now() - timedelta(days=k)] has day number [today - k]. *)
Variable strftime_ymd : Z → string.

(** The query of lines 178-188. *)
Definition build_jql (today : Z) (project_key : string) (incremental : bool)
    (lookback_days : Z) (last_updated : option string) : string :=
  let jql := "project=" +:+ project_key in
  if incremental && truthy last_updated then
    jql +:+ " AND updated >= '" +:+ split_T_head (default EmptyString last_updated) +:+ "'"
  else if incremental then
    let lookback_date := strftime_ymd (today - lookback_days) in
    jql +:+ " AND updated >= '" +:+ lookback_date +:+ "'"
  else jql.

(** ** Retry policy and fetch loop *)

(** The variables of [fetch_issues_for_project] that change while it runs. *)
Record loop_state := LoopState {
  cur_start_at : Z;
  attempt : Z;
  latest_update_seen : option string;
  cur_total : option Z
}.

(** What one pass of the inner loop decides: request again, or leave the
    outer loop. *)
Inductive step :=
  | Again (st : loop_state)
  | Break.

Definition with_attempt (st : loop_state) (n : Z) : loop_state :=
  LoopState (cur_start_at st) n (latest_update_seen st) (cur_total st).

(** The check that closes every pass of the inner loop that did not break
    (lines 269-273). *)
Definition check_retries (cfg : config) (project_key : string) (st : loop_state) : M step :=
  if attempt st >? cfg_max_retries cfg then
    let error_msg := "Max retries exceeded for project " +:+ project_key
                     +:+ " at startAt=" +:+ str (cur_start_at st) in
    log_error error_msg ;;
    raise (RuntimeError error_msg)
  else ret (Again st).

(** The handler of [requests.exceptions.RequestException] (lines 258-267). *)
Definition on_request_exception (cfg : config) (project_key : string) (st : loop_state)
    (e : exn) : M step :=
  if attempt st >=? cfg_max_retries cfg then
    log_error ("[" +:+ project_key +:+ "] Max retries exceeded for network error") ;;
    raise e
  else
    let wait := cfg_backoff_base cfg ^ attempt st in
    sleep wait ;;
    check_retries cfg project_key (with_attempt st (attempt st + 1)).

(** One record of the page against the latest update seen so far
    (lines 348-351). *)
Definition track_update (latest_update_seen : option string) (i : issue) : option string :=
  match updated i with
  | Some u =>
      if truthy (Some u) &&
         (negb (truthy latest_update_seen) ||
          match latest_update_seen with
          | Some l => String.ltb l u
          | None => false
          end)
      then Some u
      else latest_update_seen
  | None => latest_update_seen
  end.

(** The outer loop body after a 200 reply (lines 275-370). *)
Definition ingest (cfg : config) (project_key : string) (st : loop_state) (data : page)
    : M step :=
  let issues := default [] (issues data) in
  let total := get_total data (cur_total st) in
  match issues with
  | [] => ret Break
  | _ :: _ =>
      let latest_update_seen := fold_left track_update issues (latest_update_seen st) in
      save_raw_issues project_key (cur_start_at st) issues ;;
      let start_at := cur_start_at st + Z.of_nat (length issues) in
      save_checkpoint project_key start_at latest_update_seen ;;
      sleep (cfg_polite_delay cfg) ;;
      if match total with Some t => start_at >=? t | None => false end
      then ret Break
      else ret (Again (LoopState start_at 0 latest_update_seen total))
  end.

(** One pass of the inner loop on the outcome of the request
    (lines 210-273). *)
Definition on_reply (cfg : config) (project_key : string) (st : loop_state) (r : reply)
    : M step :=
  match r with
  | Response status data =>
      if status =? 200 then ingest cfg project_key st data
      else if status =? 429 then
        sleep (cfg_rate_limit_sleep cfg) ;;
        check_retries cfg project_key (with_attempt st (attempt st + 1))
      else if (500 <=? status) && (status <? 600) then
        let wait := cfg_backoff_base cfg ^ attempt st in
        sleep wait ;;
        check_retries cfg project_key (with_attempt st (attempt st + 1))
      else
        log_error ("[" +:+ project_key +:+ "] Unexpected HTTP status " +:+ str status) ;;
        (* resp.raise_for_status() raises HTTPError for 400 <= status < 600 *)
        if (400 <=? status) && (status <? 600)
        then on_request_exception cfg project_key st (HTTPError status)
        else check_retries cfg project_key st
  | Fails e =>
      if is_Timeout e then
        let wait := cfg_backoff_base cfg ^ attempt st in
        sleep wait ;;
        check_retries cfg project_key (with_attempt st (attempt st + 1))
      else if is_RequestException e then on_request_exception cfg project_key st e
      else raise e
  end.

(** How a run ends: the outer loop was left by [break], or the script of
    remote replies ran out while a request was in flight.  An exception
    that leaves the function is the [Raise] of the monad. *)
Inductive run_end :=
  | Done
  | Pending (st : loop_state).

(** [requests.get(base_url, params=params, ...)] is sent (lines 201-221). *)
Definition request (jql : string) (cfg : config) (st : loop_state) : M unit :=
  λ w, (Ret tt, emit (Request jql (cfg_max_results cfg) (cur_start_at st)) w).

(** The two nested loops (lines 200-370), one reply of the remote per
    request. *)
Fixpoint run (cfg : config) (project_key jql : string) (st : loop_state)
    (remote : list reply) : M run_end :=
  request jql cfg st ;;
  match remote with
  | [] => ret (Pending st)
  | r :: remote' =>
      let* s := on_reply cfg project_key st r in
      match s with
      | Again st' => run cfg project_key jql st' remote'
      | Break => ret Done
      end
  end.

(** Lines 150-198, then the loops. *)
Definition fetch_issues_for_project (today : Z) (project_key : string) (cfg : config)
    (remote : list reply) : M run_end :=
  let* checkpoint := load_checkpoint project_key in
  let start_at := get_start_at checkpoint in
  let last_updated := get_last_updated checkpoint in
  let jql := build_jql today project_key (cfg_incremental cfg) (cfg_lookback_days cfg)
                       last_updated in
  run cfg project_key jql (LoopState start_at 0 None None) remote.

End Clock.

(** * Vocabulary of the properties *)

(** ** Worlds and traces *)

(** The world after both checkpoint files of [project] were rewritten. *)
Definition persisted (project : string) (cursor : Z) (watermark : option string)
    (w : world) : world :=
  World (<[project := Holds (Checkpoint (Some cursor) watermark)]> (ckpt_json w))
        (<[project := Holds cursor]> (ckpt_txt w)) (raw_pages w) (trace w).

(** The JSON checkpoint of [project] is not a file that cannot be opened
    for reading: it is absent, readable, or its content cannot be
    decoded. *)
Definition json_opens (project : string) (w : world) : Prop :=
  ∀ e, ckpt_json w !! project = Some (Broken e) → is_IOError e = false.

(** The world after the raw page was written. *)
Definition stored_page (project : string) (start : Z) (records : list issue) (w : world)
    : world :=
  World (ckpt_json w) (ckpt_txt w) (<[(project, start) := records]> (raw_pages w)) (trace w).

(** The world with [evs] added to its trace. *)
Definition extend (evs : list event) (w : world) : world :=
  World (ckpt_json w) (ckpt_txt w) (raw_pages w) (trace w ++ evs).

(** The files of [w] are those of [w0]. *)
Definition same_files (w0 w : world) : Prop :=
  ckpt_json w = ckpt_json w0 ∧ ckpt_txt w = ckpt_txt w0 ∧ raw_pages w = raw_pages w0.

Definition is_Request (ev : event) : bool :=
  match ev with Request _ _ _ => true | _ => false end.

(** The number of requests sent so far. *)
Definition count_requests (t : list event) : nat := length (filter is_Request t).

(** ** Properties of the world that an action keeps *)

(** [m] keeps the property [P] of the world, however it ends. *)
Definition preserves {A} (P : world → Prop) (m : M A) : Prop :=
  ∀ w r w', m w = (r, w') → P w → P w'.

(** [P] does not look at sleeps and error lines. *)
Definition ignores_noise (P : world → Prop) : Prop :=
  ∀ ev w, is_Request ev = false → P w → P (emit ev w).

(** [P] only looks at the trace. *)
Definition ignores_files (P : world → Prop) : Prop :=
  ∀ w j t r, P w → P (World j t r (trace w)).

(** The trace grew from [t0] without a request being sent. *)
Definition no_request_since (t0 : list event) (w : world) : Prop :=
  ∃ evs, trace w = t0 ++ evs ∧ Forall (λ ev, is_Request ev = false) evs.

(** Since the trace was [t0], every request carried the query [jql] and
    the page size [size]. *)
Definition same_query_since (jql : string) (size : Z) (t0 : list event) (w : world) : Prop :=
  ∃ evs, trace w = t0 ++ evs ∧
         Forall (λ ev, ∀ j m s, ev = Request j m s → j = jql ∧ m = size) evs.


(** ** Queries, retries, totals and watermarks *)

Fixpoint contains_T (s : string) : bool :=
  match s with
  | EmptyString => false
  | String c s' => Ascii.eqb c "T"%char || contains_T s'
  end.

Definition error_msg (project : string) (st : loop_state) : string :=
  "Max retries exceeded for project " +:+ project +:+ " at startAt=" +:+ str (cur_start_at st).

Definition always_500 (remote : list reply) : Prop :=
  Forall (λ r, ∃ data, r = Response 500 data) remote.

(** The total the loop knows after a page, the value of its variable
    [total]: the page's own; none when the page gives [null] for it; the
    one known before when the page has no such key. *)
Definition last_known_total (st : loop_state) (data : page) : option Z :=
  match total data with
  | Given t => Some t
  | Null => None
  | Absent => cur_total st
  end.

(** The order of watermarks: nothing seen yet ([None], or the empty string,
    which the loop treats alike) is below everything; two timestamps
    compare as strings, character by character. *)
Definition wm_le (a b : option string) : Prop :=
  match a with
  | Some (String c l) => ∃ v, b = Some v ∧ (String c l ≤ v)%string
  | _ => True
  end.



(** ** A calendar to run the model on concrete dates

    [ymd_of_days d] renders the Gregorian date [d] days after 1970-01-01 as
    year-month-day; it instantiates [strftime_ymd] in the examples. *)

Definition pad2 (n : Z) : string := if n <? 10 then "0" +:+ str n else str n.

Definition ymd_of_days (days : Z) : string :=
  let z := days + 719468 in
  let era := z / 146097 in
  let doe := z - era * 146097 in
  let yoe := (doe - doe / 1460 + doe / 36524 - doe / 146096) / 365 in
  let doy := doe - (365 * yoe + yoe / 4 - yoe / 100) in
  let mp := (5 * doy + 2) / 153 in
  let d := doy - (153 * mp + 2) / 5 + 1 in
  let m := if mp <? 10 then mp + 3 else mp - 9 in
  let y := yoe + era * 400 + (if m <=? 2 then 1 else 0) in
  str y +:+ "-" +:+ pad2 m +:+ "-" +:+ pad2 d.

(** ** Sample stores, configurations and remotes *)

(** A project whose JSON checkpoint was cut short while its legacy text
    file still reads 80. *)
Definition torn_store : world :=
  World {[ "HADOOP" := Broken JSONDecodeError ]} {[ "HADOOP" := Holds 80 ]} ∅ [].

Definition resumed_store : world :=
  persisted "HADOOP" 50 (Some "2025-01-15T12:34:56.789Z") (World ∅ ∅ ∅ []).

Definition default_cfg : config := Config None None None None None None None.

Definition incremental_cfg : config :=
  Config None None None None None (Some true) None.

Definition two_records : list issue :=
  [Issue (Some "HADOOP-1") (Some "2025-01-01T08:00:00.000+0000");
   Issue (Some "HADOOP-2") None].

Definition three_records : list issue :=
  [Issue (Some "HADOOP-1") (Some "2025-01-01T09:30:00.000+0000");
   Issue (Some "HADOOP-2") (Some "2025-01-03T17:45:10.000+0000");
   Issue (Some "HADOOP-3") (Some "2025-01-02T23:59:59.000+0000")].

Definition bare_records : list issue :=
  [Issue (Some "HADOOP-51") None; Issue (Some "HADOOP-52") None].

(** Two pages of such records, then an empty page. *)
Definition bare_remote : list reply :=
  [Response 200 (Page (Some bare_records) (Given 60));
   Response 200 (Page (Some bare_records) Absent);
   Response 200 (Page (Some []) Absent)].

(** A first run, on 2025-01-05, finds one record, updated in the evening
    of 2025-01-03. *)
Definition first_run : list reply :=
  [Response 200 (Page (Some [Issue (Some "HADOOP-1") (Some "2025-01-03T17:45:10.000+0000")])
                      (Given 1))].

(** The next run, a day later, resumes at offset 1 of the records updated
    since 2025-01-03 and finds there one updated in the morning of that
    day. *)
Definition second_run : list reply :=
  [Response 200 (Page (Some [Issue (Some "HADOOP-2") (Some "2025-01-03T08:00:00.000+0000")])
                      (Given 2))].

Definition after_first_run : world :=
  snd (fetch_issues_for_project ymd_of_days 20093 "HADOOP" incremental_cfg first_run
         (World ∅ ∅ ∅ [])).

Definition after_second_run : world :=
  snd (fetch_issues_for_project ymd_of_days 20094 "HADOOP" incremental_cfg second_run
         after_first_run).

(** * The callers: [fetch_all_projects], [main] and [clean_data]

    The configuration dictionary also lists the projects.  [fetch_projects]
    is the loop of [fetch_all_projects] (extract.py, lines 393-400); the
    remote is given as one script of replies per project fetched, in order,
    and the clock is taken to show the same day throughout the call.
    [main] (main.py, lines 121-190) starts from the loaded configuration:
    [setup_directories] and [load_config] are left out, and so are its
    timing and its info and warning lines. *)

Record job_config := JobConfig {
  settings : config;
  projects : option (list string)       (* cfg.get("projects") *)
}.

(** How a call that drives the fetch loop ends: it returns, or it waits for
    a reply that the script of the remote does not hold. *)
Inductive ended (A : Type) :=
  | Returned (a : A)
  | Waiting (project : string) (st : loop_state).
Arguments Returned {A} a.
Arguments Waiting {A} project st.

Section Pipeline.

Variable strftime_ymd : Z → string.

Fixpoint fetch_projects (today : Z) (cfg : config) (projects : list string)
    (visits : list (list reply)) (success_count : Z) : M (ended Z) :=
  match projects with
  | [] => ret (Returned success_count)
  | p :: projects' =>
      λ w, match fetch_issues_for_project strftime_ymd today p cfg (hd [] visits) w with
           | (Ret Done, w') =>
               fetch_projects today cfg projects' (tl visits) (success_count + 1) w'
           | (Ret (Pending st), w') => (Ret (Waiting p st), w')
           | (Raise e, w') =>
               (* except Exception: logged, and the loop goes on *)
               fetch_projects today cfg projects' (tl visits) success_count
                 (emit (LogError ("Failed fetching project " +:+ p)) w')
           end
  end.

Definition fetch_all_projects (today : Z) (cfg : job_config) (visits : list (list reply))
    : M (ended Z) :=
  let projects := default ["HADOOP"] (projects cfg) in
  fetch_projects today (settings cfg) projects visits 0.

(** [transform_all_projects] of transformer.py, which [main] calls with the
    list of projects; it returns a count or raises. *)
Variable transform_all_projects : list string → M Z.

Definition main (today : Z) (run_extract run_transform : bool)
    (specific_project : option string) (cfg : job_config) (visits : list (list reply))
    : M (ended bool) :=
  let wanted := default EmptyString specific_project in
  if truthy specific_project && negb (bool_decide (wanted ∈ default [] (projects cfg))) then
    log_error ("Project " +:+ wanted +:+ " not found in config") ;;
    ret (Returned false)
  else
    (* cfg["projects"] = [specific_project] *)
    let cfg := if truthy specific_project
               then JobConfig (settings cfg) (Some [wanted]) else cfg in
    let* extracted :=
      if run_extract then
        let* r := fetch_all_projects today cfg visits in
        match r with
        | Returned success_count => ret (Returned (negb (success_count =? 0)))
        | Waiting p st => ret (Waiting p st)
        end
      else ret (Returned true) in
    match extracted with
    | Waiting p st => ret (Waiting p st)
    | Returned success =>
        if run_transform && success then
          λ w, match transform_all_projects (default [] (projects cfg)) w with
               | (Ret total, w') => (Ret (Returned true), w')
               | (Raise e, w') =>
                   (Ret (Returned false),
                    emit (LogError "Error during transformation phase") w')
               end
        else ret (Returned success)
    end.

End Pipeline.

(** [clean_data] (main.py, lines 65-96) removes the files that
    [glob.glob] finds in data/checkpoints: those matching
    [<specific_project>.*] when a project is given (a non-empty string),
    all that do not start with a dot otherwise.  The pattern is read as
    written for a project name without the characters ['*'], ['?'], ['[']
    and ['/'] ([glob_safe]); for such a name a file matches when the name
    followed by a dot starts it.  A checkpoint whose project key holds a
    ['/'] lies in a sub-directory, which the pattern does not reach.
    Removing is taken to succeed; the raw pages are not touched. *)
Fixpoint has_char (c : ascii) (s : string) : bool :=
  match s with
  | EmptyString => false
  | String c' s' => Ascii.eqb c c' || has_char c s'
  end.

Definition glob_safe (p : string) : bool :=
  negb (has_char "*"%char p) && negb (has_char "?"%char p)
  && negb (has_char "["%char p) && negb (has_char "/"%char p).

(** Whether [clean_data] removes the file called [name] of the project
    key [q]. *)
Definition cleaned (specific_project : option string) (q name : string) : bool :=
  negb (has_char "/"%char q) &&
  match specific_project with
  | Some (String c p) => String.prefix (String c p +:+ ".") name
  | _ => negb (String.prefix "." name)
  end.

Definition clean_data (specific_project : option string) : M unit :=
  λ w, (Ret tt,
        World (filter (λ kv, cleaned specific_project kv.1 (kv.1 +:+ ".json") = false)
                      (ckpt_json w))
              (filter (λ kv, cleaned specific_project kv.1 (kv.1 +:+ ".txt") = false)
                      (ckpt_txt w))
              (raw_pages w) (trace w)).

(** ** More vocabulary *)

Definition is_Sleep (ev : event) : bool :=
  match ev with Sleep _ => true | _ => false end.

(** The number of sleeps so far. *)
Definition count_sleeps (t : list event) : nat := length (filter is_Sleep t).

(** The replies that the loop answers with a sleep and a retry counted
    against [max_retries]: 429, 5xx and a timeout. *)
Definition retryable (r : reply) : Prop :=
  (∃ data, r = Response 429 data) ∨
  (∃ status data, r = Response status data ∧ 500 ≤ status < 600) ∨
  r = Fails Timeout.

(** The replies that end in the handler of [RequestException], with the
    exception it sees: a request that failed other than by a timeout, and
    a status from 400 to 499 other than 429, which [raise_for_status]
    turns into an [HTTPError]. *)
Definition rejected (r : reply) (e : exn) : Prop :=
  (r = Fails e ∧ is_RequestException e = true ∧ is_Timeout e = false) ∨
  (∃ status data, r = Response status data ∧ e = HTTPError status ∧
                  400 ≤ status < 500 ∧ status ≠ 429).

(** The statuses for which no branch of the loop does anything: not 200,
    not 429, and below 400 or from 600 on. *)
Definition unhandled (r : reply) : Prop :=
  ∃ status data, r = Response status data ∧ status ≠ 200 ∧ status ≠ 429 ∧
                 (status < 400 ∨ 600 ≤ status).

(** The files of every project other than [project] are those of [w0]. *)
Definition others_untouched (project : string) (w0 w : world) : Prop :=
  ∀ q, q ≠ project →
    ckpt_json w !! q = ckpt_json w0 !! q ∧
    ckpt_txt w !! q = ckpt_txt w0 !! q ∧
    ∀ s, raw_pages w !! (q, s) = raw_pages w0 !! (q, s).

(** Both checkpoint files of [project] are readable and hold the same
    cursor, which is not below [c]. *)
Definition checkpoint_at_least (project : string) (c : Z) (w : world) : Prop :=
  ∃ c' wm, c ≤ c' ∧
    ckpt_json w !! project = Some (Holds (Checkpoint (Some c') wm)) ∧
    ckpt_txt w !! project = Some (Holds c').

(** Two worlds hold the same files for [project]. *)
Definition agree_on (project : string) (w1 w2 : world) : Prop :=
  ckpt_json w1 !! project = ckpt_json w2 !! project ∧
  ckpt_txt w1 !! project = ckpt_txt w2 !! project ∧
  ∀ s, raw_pages w1 !! (project, s) = raw_pages w2 !! (project, s).

(** What [m] returns, and the files of [project] it leaves, depend on the
    files of [project] only: not on the trace, not on other projects. *)
Definition local_to {A} (project : string) (m : M A) : Prop :=
  ∀ w1 w2, agree_on project w1 w2 →
    fst (m w1) = fst (m w2) ∧ agree_on project (snd (m w1)) (snd (m w2)).

(** Whether a fetch ended by leaving its loop. *)
Definition is_Done (r : res run_end) : bool :=
  match r with Ret Done => true | _ => false end.

(** [P] does not look at the trace. *)
Definition ignores_trace (P : world → Prop) : Prop :=
  ∀ ev w, P w → P (emit ev w).

(** [P] does not look at the files of [project]. *)
Definition ignores_project (project : string) (P : world → Prop) : Prop :=
  (∀ w x, P w →
     P (World (<[project := x]> (ckpt_json w)) (ckpt_txt w) (raw_pages w) (trace w))) ∧
  (∀ w x, P w →
     P (World (ckpt_json w) (<[project := x]> (ckpt_txt w)) (raw_pages w) (trace w))) ∧
  (∀ w s x, P w →
     P (World (ckpt_json w) (ckpt_txt w) (<[(project, s) := x]> (raw_pages w)) (trace w))).

(** The remote serves the pages one after the other and reports no
    total. *)
Definition served (pages : list (list issue)) : list reply :=
  map (λ records, Response 200 (Page (Some records) Absent)) pages.

(** The watermark written after records whose greatest [updated] value is
    [latest], when [ck] was on record before. *)
Definition written_watermark (latest : option string) (ck : checkpoint) : option string :=
  match latest with Some u => Some u | None => last_updated ck end.

(** The number of [projects] whose fetch, run on [w] against its own
    script, leaves its loop. *)
Fixpoint solo_successes (strftime_ymd : Z → string) (today : Z) (cfg : config) (w : world)
    (projects : list string) (visits : list (list reply)) : Z :=
  match projects with
  | [] => 0
  | p :: projects' =>
      (if is_Done (fst (fetch_issues_for_project strftime_ymd today p cfg (hd [] visits) w))
       then 1 else 0)
      + solo_successes strftime_ymd today cfg w projects' (tl visits)
  end.

(** What [main] makes of the transformation phase run on [w]. *)
Definition transformed (transform_all_projects : list string → M Z) (listed : list string)
    (w : world) : res (ended bool) * world :=
  match transform_all_projects listed w with
  | (Ret _, w') => (Ret (Returned true), w')
  | (Raise _, w') =>
      (Ret (Returned false), emit (LogError "Error during transformation phase") w')
  end.

(** ** More samples *)

(** Six failures of three kinds use up the default budget of five retries. *)
Definition mixed_failures : list reply :=
  [Response 429 (Page None Absent); Response 500 (Page None Absent); Fails Timeout;
   Response 503 (Page None Absent); Response 429 (Page None Absent);
   Response 502 (Page None Absent)].

(** A page of two records, a server error, a page of one record, an empty
    page. *)
Definition bumpy_remote : list reply :=
  [Response 200 (Page (Some two_records) (Given 90));
   Response 500 (Page None Absent);
   Response 200 (Page (Some [Issue (Some "HADOOP-9") (Some "2025-01-20T10:00:00.000+0000")])
                      (Given 90));
   Response 200 (Page (Some []) (Given 90))].

(** A store left by the version of the program that knew the text
    checkpoint only. *)
Definition legacy_store : world := World ∅ {[ "HADOOP" := Holds 150 ]} ∅ [].

(** Two projects in the configuration. *)
Definition two_projects : job_config := JobConfig default_cfg (Some ["HADOOP"; "SPARK"]).

(** HADOOP is served its last record; SPARK is not found, six times. *)
Definition two_visits : list (list reply) :=
  [first_run; replicate 6 (Response 404 (Page None Absent))].

(** * Properties *)

(** ** Checkpoint store *)

Lemma load_checkpoint_json (project : string) (w : world) (ck : checkpoint) :
  ckpt_json w !! project = Some (Holds ck) →
  load_checkpoint project w = (Ret ck, w).
Proof.
  intros Hj. unfold load_checkpoint, bind, read_json. rewrite Hj. reflexivity.
Qed.

Lemma load_checkpoint_absent (project : string) (w : world) :
  ckpt_json w !! project = None →
  ckpt_txt w !! project = None →
  load_checkpoint project w = (Ret zero_checkpoint, w).
Proof.
  intros Hj Ht. unfold load_checkpoint, bind, read_json, read_legacy; cbn.
  rewrite Hj; cbn. rewrite Ht. reflexivity.
Qed.

Lemma rewritten_opens (before : option (stored checkpoint)) (ck : checkpoint) :
  (∀ e, before = Some (Broken e) → is_IOError e = false) →
  rewritten before ck = Holds ck.
Proof.
  intros H. destruct before as [[ck0|e]|]; [done| |done].
  cbn. by rewrite (H e eq_refl).
Qed.

Lemma json_opens_holds (project : string) (w : world) (ck : checkpoint) :
  ckpt_json w !! project = Some (Holds ck) → json_opens project w.
Proof. intros Hj e He. congruence. Qed.

(** The two writes that end [save_checkpoint]. *)
Lemma write_both (project : string) (cursor : Z) (wm : option string) (w : world) :
  json_opens project w →
  (write_json project (Checkpoint (Some cursor) wm) ;; write_legacy project cursor) w
  = (Ret tt, persisted project cursor wm w).
Proof.
  intros Hw. unfold bind, write_json, write_legacy, persisted. cbn.
  by rewrite (rewritten_opens _ _ Hw).
Qed.

Lemma save_checkpoint_given (project : string) (cursor : Z) (wm : string) (w : world) :
  json_opens project w →
  save_checkpoint project cursor (Some wm) w = (Ret tt, persisted project cursor (Some wm) w).
Proof.
  intros Hw. unfold save_checkpoint. unfold bind at 1, ret at 1.
  by apply write_both.
Qed.

Lemma save_checkpoint_omitted (project : string) (cursor : Z) (w : world) (ck : checkpoint) :
  ckpt_json w !! project = Some (Holds ck) →
  save_checkpoint project cursor None w
  = (Ret tt, persisted project cursor (last_updated ck) w).
Proof.
  intros Hj. unfold save_checkpoint. unfold bind at 1.
  unfold bind at 1. rewrite (load_checkpoint_json _ _ _ Hj). unfold ret at 1.
  apply write_both. by eapply json_opens_holds.
Qed.

Lemma load_persisted (project : string) (cursor : Z) (wm : option string) (w : world) :
  load_checkpoint project (persisted project cursor wm w)
  = (Ret (Checkpoint (Some cursor) wm), persisted project cursor wm w).
Proof. apply load_checkpoint_json. cbn. apply lookup_insert_eq. Qed.

(** C3, as stated, fails: with an undecodable JSON record and a readable
    legacy file, [load_checkpoint] does not fall back to the zero value but
    to the legacy cursor. *)
Lemma load_checkpoint_corrupt_json_uses_legacy :
  ckpt_json torn_store !! "HADOOP" = Some (Broken JSONDecodeError) ∧
  fst (load_checkpoint "HADOOP" torn_store) = Ret (Checkpoint (Some 80) None) ∧
  fst (load_checkpoint "HADOOP" torn_store) ≠ Ret zero_checkpoint.
Proof. split; [reflexivity|]. split; [reflexivity|]. vm_compute. discriminate. Qed.

(** C3 (amended): [load_checkpoint] returns the last persisted checkpoint,
    and the zero value when neither checkpoint file exists.  When the JSON
    record exists but raises [JSONDecodeError] or [IOError] on reading, the
    failure is logged and the legacy text file decides: its integer [n]
    gives cursor [n] with no watermark; when it is absent, or fails with a
    [ValueError] or [IOError] (logged too), the result is the zero value.
    None of these cases raises. *)
Theorem load_checkpoint_recovers (project : string) (w : world) :
  (∀ cursor wm w0, w = persisted project cursor wm w0 →
     load_checkpoint project w = (Ret (Checkpoint (Some cursor) wm), w)) ∧
  (∀ ck, ckpt_json w !! project = Some (Holds ck) →
     load_checkpoint project w = (Ret ck, w)) ∧
  (ckpt_json w !! project = None → ckpt_txt w !! project = None →
     load_checkpoint project w = (Ret zero_checkpoint, w)) ∧
  (∀ e, ckpt_json w !! project = Some (Broken e) →
     is_JSONDecodeError e || is_IOError e = true →
     let w1 := emit (LogError ("Error loading JSON checkpoint for " +:+ project)) w in
     match ckpt_txt w !! project with
     | Some (Holds n) => load_checkpoint project w = (Ret (Checkpoint (Some n) None), w1)
     | Some (Broken e') =>
         is_ValueError e' || is_IOError e' = true →
         load_checkpoint project w
         = (Ret zero_checkpoint,
            emit (LogError ("Error loading legacy checkpoint for " +:+ project)) w1)
     | None => load_checkpoint project w = (Ret zero_checkpoint, w1)
     end).
Proof.
  split; [|split; [|split]].
  - intros cursor wm w0 ->. apply load_persisted.
  - intros ck Hj. by apply load_checkpoint_json.
  - apply load_checkpoint_absent.
  - intros e Hj He w1.
    unfold load_checkpoint, bind, read_json, read_legacy; cbn.
    rewrite Hj; cbn. rewrite He; cbn.
    destruct (ckpt_txt w !! project) as [[n|e']|]; [reflexivity| |reflexivity].
    intros He'. cbn. rewrite He'. reflexivity.
Qed.

Lemma load_checkpoint_recovers_witness :
  load_checkpoint "HADOOP" torn_store
  = (Ret (Checkpoint (Some 80) None),
     emit (LogError "Error loading JSON checkpoint for HADOOP") torn_store).
Proof.
  destruct (load_checkpoint_recovers "HADOOP" torn_store) as (_ & _ & _ & H).
  exact (H JSONDecodeError eq_refl eq_refl).
Defined.

(** Left out of the statement above: bytes that are not text make
    [json.load] raise [UnicodeDecodeError], which the first handler does
    not catch. *)
Example load_checkpoint_undecodable_json :
  load_checkpoint "HADOOP" (World {[ "HADOOP" := Broken UnicodeDecodeError ]}
                                  {[ "HADOOP" := Holds 80 ]} ∅ [])
  = (Raise UnicodeDecodeError,
     World {[ "HADOOP" := Broken UnicodeDecodeError ]} {[ "HADOOP" := Holds 80 ]} ∅ []).
Proof. reflexivity. Qed.

(** C4: with a watermark on record, [save_checkpoint] called without one
    stores the new cursor and keeps that watermark: the next
    [load_checkpoint] returns both. *)
Theorem save_checkpoint_keeps_watermark (project : string) (cursor : Z)
    (ck : checkpoint) (wm : string) (w : world) :
  ckpt_json w !! project = Some (Holds ck) →
  last_updated ck = Some wm →
  ∃ w', save_checkpoint project cursor None w = (Ret tt, w') ∧
        load_checkpoint project w' = (Ret (Checkpoint (Some cursor) (Some wm)), w') ∧
        ckpt_txt w' !! project = Some (Holds cursor).
Proof.
  intros Hj Hwm. exists (persisted project cursor (Some wm) w).
  rewrite (save_checkpoint_omitted _ _ _ _ Hj), Hwm.
  split; [reflexivity|]. split; [apply load_persisted|].
  cbn. apply lookup_insert_eq.
Qed.

Lemma save_checkpoint_keeps_watermark_witness :
  ∃ w', save_checkpoint "HADOOP" 80 None
          (persisted "HADOOP" 50 (Some "2025-01-15T12:34:56.789Z") (World ∅ ∅ ∅ []))
        = (Ret tt, w') ∧
        load_checkpoint "HADOOP" w'
        = (Ret (Checkpoint (Some 80) (Some "2025-01-15T12:34:56.789Z")), w') ∧
        ckpt_txt w' !! "HADOOP" = Some (Holds 80).
Proof.
  apply (save_checkpoint_keeps_watermark "HADOOP" 80
           (Checkpoint (Some 50) (Some "2025-01-15T12:34:56.789Z"))).
  - reflexivity.
  - reflexivity.
Defined.

(** ** Which actions touch what *)

Lemma preserves_ret {A} (P : world → Prop) (a : A) : preserves P (ret a).
Proof. intros w r w' [= <- <-]. done. Qed.

Lemma preserves_raise {A} (P : world → Prop) (e : exn) : preserves P (@raise A e).
Proof. intros w r w' [= <- <-]. done. Qed.

Lemma preserves_bind {A B} (P : world → Prop) (m : M A) (k : A → M B) :
  preserves P m → (∀ a, preserves P (k a)) → preserves P (bind m k).
Proof.
  intros Hm Hk w r w'. unfold bind.
  destruct (m w) as [[a|e] w1] eqn:Em.
  - intros Ek HP. eapply Hk; [exact Ek|]. eapply Hm; eauto.
  - intros [= <- <-] HP. eapply Hm; eauto.
Qed.

Lemma preserves_log_error (P : world → Prop) (msg : string) :
  ignores_noise P → preserves P (log_error msg).
Proof. intros HP w r w' [= <- <-]. by apply HP. Qed.

Lemma preserves_sleep (P : world → Prop) (seconds : Z) :
  ignores_noise P → preserves P (sleep seconds).
Proof.
  intros HP w r w'. unfold sleep. destruct (seconds <? 0); intros [= <- <-]; [done|].
  by apply HP.
Qed.

Lemma preserves_load_checkpoint (P : world → Prop) (project : string) :
  ignores_noise P → preserves P (load_checkpoint project).
Proof.
  intros HP. unfold load_checkpoint.
  apply preserves_bind; [by intros w r w' [= <- <-]|]. intros json_file.
  apply preserves_bind.
  { destruct json_file as [[ck|e]|]; try apply preserves_ret.
    destruct (_ || _); [|apply preserves_raise].
    apply preserves_bind; [by apply preserves_log_error|]. intros _. apply preserves_ret. }
  intros [ck|]; [apply preserves_ret|].
  apply preserves_bind; [by intros w r w' [= <- <-]|]. intros legacy_file.
  apply preserves_bind.
  { destruct legacy_file as [[n|e]|]; try apply preserves_ret.
    destruct (_ || _); [|apply preserves_raise].
    apply preserves_bind; [by apply preserves_log_error|]. intros _. apply preserves_ret. }
  intros [ck|]; apply preserves_ret.
Qed.

Lemma preserves_save_checkpoint (P : world → Prop) (project : string) (cursor : Z)
    (wm : option string) :
  ignores_noise P → ignores_files P → preserves P (save_checkpoint project cursor wm).
Proof.
  intros HP HF. unfold save_checkpoint.
  apply preserves_bind.
  { destruct wm; [apply preserves_ret|].
    apply preserves_bind; [by apply preserves_load_checkpoint|]. intros ck. apply preserves_ret. }
  intros lu. apply preserves_bind.
  - intros w r w' [= <- <-] Hw. by apply (HF w).
  - intros _ w r w' [= <- <-] Hw. by apply (HF w).
Qed.

Lemma preserves_check_retries (P : world → Prop) cfg project st :
  ignores_noise P → preserves P (check_retries cfg project st).
Proof.
  intros HP. unfold check_retries. destruct (_ >? _); [|apply preserves_ret].
  apply preserves_bind; [by apply preserves_log_error|]. intros _. apply preserves_raise.
Qed.

Lemma preserves_on_request_exception (P : world → Prop) cfg project st e :
  ignores_noise P → preserves P (on_request_exception cfg project st e).
Proof.
  intros HP. unfold on_request_exception. destruct (_ >=? _).
  - apply preserves_bind; [by apply preserves_log_error|]. intros _. apply preserves_raise.
  - apply preserves_bind; [by apply preserves_sleep|]. intros _.
    by apply preserves_check_retries.
Qed.

Lemma preserves_ingest (P : world → Prop) cfg project st data :
  ignores_noise P → ignores_files P → preserves P (ingest cfg project st data).
Proof.
  intros HP HF. unfold ingest. destruct (default [] (issues data)) as [|i l];
    [apply preserves_ret|].
  apply preserves_bind.
  { intros w r w' [= <- <-] Hw. by apply (HF w). }
  intros _. apply preserves_bind; [by apply preserves_save_checkpoint|].
  intros _. apply preserves_bind; [by apply preserves_sleep|].
  intros _. destruct (match _ with Some _ => _ | None => _ end);
    apply preserves_ret.
Qed.

(** A reply other than 200 leads to sleeps and error lines only. *)
Lemma preserves_retry (P : world → Prop) cfg project st r :
  ignores_noise P →
  (∀ data, r ≠ Response 200 data) →
  preserves P (on_reply cfg project st r).
Proof.
  intros HP Hr. destruct r as [status data|e]; cbn.
  - destruct (status =? 200) eqn:E200.
    { apply Z.eqb_eq in E200 as ->. by destruct (Hr data). }
    destruct (status =? 429).
    { apply preserves_bind; [by apply preserves_sleep|]. intros _.
      by apply preserves_check_retries. }
    destruct (_ && _).
    { apply preserves_bind; [by apply preserves_sleep|]. intros _.
      by apply preserves_check_retries. }
    apply preserves_bind; [by apply preserves_log_error|]. intros _.
    destruct (_ && _);
      [by apply preserves_on_request_exception|by apply preserves_check_retries].
  - destruct (is_Timeout e).
    { apply preserves_bind; [by apply preserves_sleep|]. intros _.
      by apply preserves_check_retries. }
    destruct (is_RequestException e);
      [by apply preserves_on_request_exception|apply preserves_raise].
Qed.

Lemma preserves_on_reply (P : world → Prop) cfg project st r :
  ignores_noise P → ignores_files P → preserves P (on_reply cfg project st r).
Proof.
  intros HP HF. destruct r as [status data|e].
  - destruct (decide (status = 200)) as [->|Hne].
    + cbn. by apply preserves_ingest.
    + apply preserves_retry; [done|]. intros d [= ?]. done.
  - apply preserves_retry; [done|]. intros d [= ].
Qed.

Lemma no_request_since_noise t0 : ignores_noise (no_request_since t0).
Proof.
  intros ev w Hev (evs & Ht & Hall). exists (evs ++ [ev]). cbn. rewrite Ht, <-app_assoc.
  split; [done|]. apply Forall_app. split; [done|]. by constructor.
Qed.

Lemma no_request_since_files t0 : ignores_files (no_request_since t0).
Proof. intros w j t r H. exact H. Qed.

Lemma no_request_since_start (w : world) : no_request_since (trace w) w.
Proof. exists []. split; [by rewrite app_nil_r|constructor]. Qed.

Lemma count_requests_app (t1 t2 : list event) :
  count_requests (t1 ++ t2) = (count_requests t1 + count_requests t2)%nat.
Proof. unfold count_requests. by rewrite filter_app, length_app. Qed.

Lemma count_requests_quiet (evs : list event) :
  Forall (λ ev, is_Request ev = false) evs → count_requests evs = 0%nat.
Proof.
  unfold count_requests. induction 1 as [|ev evs Hev _ IH]; [done|].
  rewrite filter_cons. destruct (decide (is_Request ev)) as [Hd|Hd]; [|done].
  rewrite Hev in Hd. done.
Qed.

(** Handling a reply sends no request. *)
Lemma on_reply_sends_nothing cfg project st r w s w' :
  on_reply cfg project st r w = (s, w') →
  no_request_since (trace w) w'.
Proof.
  intros H. eapply preserves_on_reply; [apply no_request_since_noise|
    apply no_request_since_files|exact H|apply no_request_since_start].
Qed.

Example ymd_of_days_epoch : ymd_of_days 0 = "1970-01-01".
Proof. reflexivity. Qed.

Example ymd_of_days_leap : ymd_of_days 19782 = "2024-02-29".
Proof. reflexivity. Qed.

Example ymd_of_days_2025 : ymd_of_days 20100 = "2025-01-12".
Proof. reflexivity. Qed.

(** ** Incremental query *)

Lemma split_T_head_date (date time : string) :
  contains_T date = false →
  split_T_head (date +:+ String "T"%char time) = date.
Proof.
  induction date as [|c date IH]; intros H; [done|].
  change (String c date +:+ String "T"%char time)
    with (String c (date +:+ String "T"%char time)).
  cbn in *. destruct (Ascii.eqb c "T"%char); [done|].
  by rewrite IH.
Qed.

Section Query.

Variable strftime_ymd : Z → string.

Lemma build_jql_watermark (today : Z) (project : string) (lookback : Z) (wm : string) :
  wm ≠ EmptyString →
  build_jql strftime_ymd today project true lookback (Some wm)
  = "project=" +:+ project +:+ " AND updated >= '" +:+ split_T_head wm +:+ "'".
Proof. destruct wm; [done|reflexivity]. Qed.

(** C5: the query is the bare project filter when [incremental] is off;
    with [incremental] on and a watermark on record (a non-empty string) it
    adds [updated >=] the text of the watermark before its ['T'], that is
    its date; with [incremental] on and no watermark it adds [updated >=]
    the date [lookback_days] days before today. *)
Theorem incremental_filter (today : Z) (project : string) (lookback : Z) :
  (∀ lu, build_jql strftime_ymd today project false lookback lu = "project=" +:+ project) ∧
  (∀ wm, wm ≠ EmptyString →
     build_jql strftime_ymd today project true lookback (Some wm)
     = "project=" +:+ project +:+ " AND updated >= '" +:+ split_T_head wm +:+ "'") ∧
  (∀ date time, contains_T date = false → date ≠ EmptyString →
     build_jql strftime_ymd today project true lookback (Some (date +:+ String "T"%char time))
     = "project=" +:+ project +:+ " AND updated >= '" +:+ date +:+ "'") ∧
  build_jql strftime_ymd today project true lookback None
  = "project=" +:+ project +:+ " AND updated >= '" +:+ strftime_ymd (today - lookback) +:+ "'".
Proof.
  split; [|split; [|split]].
  - intros lu. reflexivity.
  - apply build_jql_watermark.
  - intros date time HT Hne.
    rewrite build_jql_watermark, split_T_head_date; [done..|].
    by destruct date.
  - reflexivity.
Qed.

End Query.

Lemma incremental_filter_witness :
  build_jql ymd_of_days 20100 "HADOOP" true 7 (Some "2025-01-03T10:15:00.000+0000")
  = "project=HADOOP AND updated >= '2025-01-03'".
Proof.
  destruct (incremental_filter ymd_of_days 20100 "HADOOP" 7) as (_ & _ & H & _).
  apply (H "2025-01-03" "10:15:00.000+0000"); [reflexivity|discriminate].
Defined.

Example lookback_query_sample :
  build_jql ymd_of_days 20100 "HADOOP" true 7 None
  = "project=HADOOP AND updated >= '2025-01-05'".
Proof. reflexivity. Qed.

(** ** The fetch loop: what a run adds to the trace *)

Lemma run_unfold cfg project jql st remote :
  run cfg project jql st remote
  = bind (request jql cfg st) (λ _,
      match remote with
      | [] => ret (Pending st)
      | r :: remote' =>
          bind (on_reply cfg project st r) (λ s,
            match s with
            | Again st' => run cfg project jql st' remote'
            | Break => ret Done
            end)
      end).
Proof. destruct remote; reflexivity. Qed.

Lemma preserves_run (P : world → Prop) cfg project jql st remote :
  ignores_noise P → ignores_files P →
  (∀ s w, P w → P (emit (Request jql (cfg_max_results cfg) s) w)) →
  preserves P (run cfg project jql st remote).
Proof.
  intros HP HF HR. revert st. induction remote as [|r remote IH]; intros st;
    rewrite run_unfold.
  - apply preserves_bind; [|intros _; apply preserves_ret].
    intros w x w' [= <- <-] Hw. by apply HR.
  - apply preserves_bind.
    { intros w x w' [= <- <-] Hw. by apply HR. }
    intros _. apply preserves_bind; [by apply preserves_on_reply|].
    intros [st'|]; [apply IH|apply preserves_ret].
Qed.

Lemma same_query_since_emit jql size t0 ev w :
  (∀ j m s, ev = Request j m s → j = jql ∧ m = size) →
  same_query_since jql size t0 w → same_query_since jql size t0 (emit ev w).
Proof.
  intros Hev (evs & Ht & Hall). exists (evs ++ [ev]). cbn. rewrite Ht, <-app_assoc.
  split; [done|]. apply Forall_app. split; [done|]. by constructor.
Qed.

Lemma same_query_since_noise jql size t0 : ignores_noise (same_query_since jql size t0).
Proof.
  intros ev w Hev. apply same_query_since_emit. intros j m s ->. done.
Qed.

Lemma same_query_since_files jql size t0 : ignores_files (same_query_since jql size t0).
Proof. intros w j t r H. exact H. Qed.

(** A run starts with a request at its cursor, and never changes the query. *)
Lemma run_trace cfg project jql st remote w r w' :
  run cfg project jql st remote w = (r, w') →
  ∃ evs, trace w' = trace w ++ Request jql (cfg_max_results cfg) (cur_start_at st) :: evs ∧
         Forall (λ ev, ∀ j m s, ev = Request j m s → j = jql ∧ m = cfg_max_results cfg) evs.
Proof.
  rewrite run_unfold. unfold bind at 1, request at 1.
  set (w1 := emit _ w). intros Hrun.
  assert (same_query_since jql (cfg_max_results cfg) (trace w1) w') as (evs & Ht & Hall).
  { assert (∀ s w2, same_query_since jql (cfg_max_results cfg) (trace w1) w2 →
              same_query_since jql (cfg_max_results cfg) (trace w1)
                (emit (Request jql (cfg_max_results cfg) s) w2)) as HR.
    { intros s w2. apply same_query_since_emit. by intros j m s' [= <- <- _]. }
    assert (same_query_since jql (cfg_max_results cfg) (trace w1) w1) as H1.
    { exists []. split; [by rewrite app_nil_r|constructor]. }
    destruct remote as [|r0 remote].
    - injection Hrun as <- <-. exact H1.
    - revert Hrun H1. apply preserves_bind.
      + apply preserves_on_reply;
          [apply same_query_since_noise|apply same_query_since_files].
      + intros [st'|]; [|apply preserves_ret].
        apply preserves_run;
          [apply same_query_since_noise|apply same_query_since_files|exact HR]. }
  exists evs. split; [|done]. rewrite Ht. subst w1. cbn. by rewrite <-app_assoc.
Qed.

Section Resume.

Variable strftime_ymd : Z → string.

(** C8: with the checkpoint [{start_at: c, last_updated: wm}] on record, a
    run sends its first request at offset [c], with the query built from
    [wm]; with [incremental] on, a non-empty [wm] restricts the query to
    its date, and the query stays the same for every later request of the
    run. *)
Theorem fetch_resumes_from_checkpoint (today : Z) (project : string) (cfg : config)
    (remote : list reply) (c : Z) (wm : option string) (w : world) r w' :
  ckpt_json w !! project = Some (Holds (Checkpoint (Some c) wm)) →
  fetch_issues_for_project strftime_ymd today project cfg remote w = (r, w') →
  let jql := build_jql strftime_ymd today project (cfg_incremental cfg)
                       (cfg_lookback_days cfg) wm in
  (∃ evs, trace w' = trace w ++ Request jql (cfg_max_results cfg) c :: evs ∧
          Forall (λ ev, ∀ j m s, ev = Request j m s → j = jql ∧ m = cfg_max_results cfg) evs) ∧
  (cfg_incremental cfg = true → ∀ s, wm = Some s → s ≠ EmptyString →
     jql = "project=" +:+ project +:+ " AND updated >= '" +:+ split_T_head s +:+ "'").
Proof.
  intros Hj Hfetch jql. split.
  - unfold fetch_issues_for_project, bind in Hfetch.
    rewrite (load_checkpoint_json _ _ _ Hj) in Hfetch. cbn in Hfetch.
    apply run_trace in Hfetch. exact Hfetch.
  - intros Hinc s -> Hs. subst jql. rewrite Hinc. by apply build_jql_watermark.
Qed.

End Resume.

Lemma fetch_resumes_from_checkpoint_witness :
  ∃ evs, trace (snd (fetch_issues_for_project ymd_of_days 20110 "HADOOP" incremental_cfg
                       [Response 200 (Page (Some []) (Given 50))] resumed_store))
         = trace resumed_store
           ++ Request "project=HADOOP AND updated >= '2025-01-15'" 50 50 :: evs.
Proof.
  destruct (fetch_resumes_from_checkpoint ymd_of_days 20110 "HADOOP" incremental_cfg
              [Response 200 (Page (Some []) (Given 50))] 50
              (Some "2025-01-15T12:34:56.789Z") resumed_store
              (fst (fetch_issues_for_project ymd_of_days 20110 "HADOOP" incremental_cfg
                      [Response 200 (Page (Some []) (Given 50))] resumed_store))
              (snd (fetch_issues_for_project ymd_of_days 20110 "HADOOP" incremental_cfg
                      [Response 200 (Page (Some []) (Given 50))] resumed_store))
              eq_refl eq_refl) as [(evs & Ht & _) _].
  exists evs. exact Ht.
Defined.

(** ** Retry policy *)

Lemma check_retries_eq cfg project st w :
  check_retries cfg project st w
  = if attempt st >? cfg_max_retries cfg
    then (Raise (RuntimeError (error_msg project st)),
          emit (LogError (error_msg project st)) w)
    else (Ret (Again st), w).
Proof. unfold check_retries. by destruct (_ >? _). Qed.

Lemma sleep_nonneg (seconds : Z) (w : world) :
  0 ≤ seconds → sleep seconds w = (Ret tt, emit (Sleep seconds) w).
Proof. intros H. unfold sleep. by rewrite (proj2 (Z.ltb_ge _ _) H). Qed.

Lemma on_reply_429 cfg project st data w :
  0 ≤ cfg_rate_limit_sleep cfg →
  on_reply cfg project st (Response 429 data) w
  = check_retries cfg project (with_attempt st (attempt st + 1))
      (emit (Sleep (cfg_rate_limit_sleep cfg)) w).
Proof. intros H. cbn. unfold bind. by rewrite sleep_nonneg. Qed.

Lemma on_reply_5xx cfg project st status data w :
  500 ≤ status < 600 →
  0 ≤ cfg_backoff_base cfg ^ attempt st →
  on_reply cfg project st (Response status data) w
  = check_retries cfg project (with_attempt st (attempt st + 1))
      (emit (Sleep (cfg_backoff_base cfg ^ attempt st)) w).
Proof.
  intros Hs H. unfold on_reply.
  destruct (status =? 200) eqn:E1; [lia|].
  destruct (status =? 429) eqn:E2; [lia|].
  destruct (_ && _) eqn:E3; [|lia].
  unfold bind. by rewrite sleep_nonneg.
Qed.

Lemma on_reply_timeout cfg project st w :
  0 ≤ cfg_backoff_base cfg ^ attempt st →
  on_reply cfg project st (Fails Timeout) w
  = check_retries cfg project (with_attempt st (attempt st + 1))
      (emit (Sleep (cfg_backoff_base cfg ^ attempt st)) w).
Proof. intros H. cbn. unfold bind. by rewrite sleep_nonneg. Qed.

(** A retry that is not the last one: the request, the sleep, and the same
    request again with the attempt counter one higher. *)
Lemma run_retry cfg project jql st r remote w seconds :
  on_reply cfg project st r (emit (Request jql (cfg_max_results cfg) (cur_start_at st)) w)
  = check_retries cfg project (with_attempt st (attempt st + 1))
      (emit (Sleep seconds) (emit (Request jql (cfg_max_results cfg) (cur_start_at st)) w)) →
  attempt st + 1 ≤ cfg_max_retries cfg →
  run cfg project jql st (r :: remote) w
  = run cfg project jql (with_attempt st (attempt st + 1)) remote
      (emit (Sleep seconds) (emit (Request jql (cfg_max_results cfg) (cur_start_at st)) w)).
Proof.
  intros Hr Hle. rewrite run_unfold. unfold bind at 1, request at 1.
  unfold bind at 1. rewrite Hr, check_retries_eq. cbn [attempt with_attempt].
  by rewrite Z.gtb_ltb, (proj2 (Z.ltb_ge _ _) Hle).
Qed.

Lemma emit_extend (ev : event) (evs : list event) (w : world) :
  emit ev (extend evs w) = extend (evs ++ [ev]) w.
Proof. unfold emit, extend. cbn. by rewrite <-app_assoc. Qed.

Lemma emit_as_extend (ev : event) (w : world) : emit ev w = extend [ev] w.
Proof. reflexivity. Qed.

(** C6: a 429 reply sleeps the configured [rate_limit_sleep_seconds],
    whatever the attempt; a 5xx reply and a timeout sleep
    [retry_backoff_base ** attempt]; each of them raises the attempt counter
    by one before the retry check.  So two 429 replies in a row give two
    equal sleeps, and the replies 500, 500, 200 from attempt 0 give the
    sleeps [base ** 0] and [base ** 1] before the page is ingested. *)
Theorem retry_sleeps (cfg : config) (project jql : string) (st : loop_state) (w : world) :
  let request := Request jql (cfg_max_results cfg) (cur_start_at st) in
  let rate_limit_sleep := cfg_rate_limit_sleep cfg in
  let backoff_base := cfg_backoff_base cfg in
  (0 ≤ rate_limit_sleep → ∀ data,
     on_reply cfg project st (Response 429 data) w
     = check_retries cfg project (with_attempt st (attempt st + 1))
         (emit (Sleep rate_limit_sleep) w)) ∧
  (0 ≤ backoff_base → 0 ≤ attempt st → ∀ status data, 500 ≤ status < 600 →
     on_reply cfg project st (Response status data) w
     = check_retries cfg project (with_attempt st (attempt st + 1))
         (emit (Sleep (backoff_base ^ attempt st)) w)) ∧
  (0 ≤ backoff_base → 0 ≤ attempt st →
     on_reply cfg project st (Fails Timeout) w
     = check_retries cfg project (with_attempt st (attempt st + 1))
         (emit (Sleep (backoff_base ^ attempt st)) w)) ∧
  (attempt st + 1 ≤ cfg_max_retries cfg → ∀ w1,
     check_retries cfg project (with_attempt st (attempt st + 1)) w1
     = (Ret (Again (with_attempt st (attempt st + 1))), w1)) ∧
  (0 ≤ rate_limit_sleep → attempt st = 0 → 2 ≤ cfg_max_retries cfg →
   ∀ d1 d2 remote,
     run cfg project jql st (Response 429 d1 :: Response 429 d2 :: remote) w
     = run cfg project jql (with_attempt st 2) remote
         (extend [request; Sleep rate_limit_sleep; request; Sleep rate_limit_sleep] w)) ∧
  (0 ≤ backoff_base → attempt st = 0 → 2 ≤ cfg_max_retries cfg →
   ∀ d1 d2 data remote,
     run cfg project jql st
       (Response 500 d1 :: Response 500 d2 :: Response 200 data :: remote) w
     = bind (ingest cfg project (with_attempt st 2) data)
         (λ s, match s with
               | Again st' => run cfg project jql st' remote
               | Break => ret Done
               end)
         (extend [request; Sleep (backoff_base ^ 0); request; Sleep (backoff_base ^ 1);
                  request] w)).
Proof.
  intros request rate_limit_sleep backoff_base.
  split; [|split; [|split; [|split; [|split]]]].
  - intros Hrl data. by apply on_reply_429.
  - intros Hb Ha status data Hs. apply on_reply_5xx; [done|]. by apply Z.pow_nonneg.
  - intros Hb Ha. apply on_reply_timeout. by apply Z.pow_nonneg.
  - intros Hle w1. rewrite check_retries_eq. cbn [attempt with_attempt].
    by rewrite Z.gtb_ltb, (proj2 (Z.ltb_ge _ _) Hle).
  - intros Hrl Ha Hmax d1 d2 remote.
    rewrite (run_retry _ _ _ _ _ _ _ rate_limit_sleep);
      [|by apply on_reply_429|lia].
    rewrite (run_retry _ _ _ _ _ _ _ rate_limit_sleep);
      [|by apply on_reply_429|cbn; lia].
    cbn [attempt with_attempt cur_start_at latest_update_seen cur_total].
    rewrite Ha. f_equal.
    unfold emit, extend. cbn. by rewrite <-!app_assoc.
  - intros Hb Ha Hmax d1 d2 data remote.
    rewrite (run_retry _ _ _ _ _ _ _ (backoff_base ^ attempt st));
      [|apply on_reply_5xx; [lia|apply Z.pow_nonneg; lia]|lia].
    rewrite (run_retry _ _ _ _ _ _ _ (backoff_base ^ (attempt st + 1)));
      [|apply on_reply_5xx; [lia|apply Z.pow_nonneg; lia]|cbn; lia].
    cbn [attempt with_attempt cur_start_at latest_update_seen cur_total].
    rewrite Ha. rewrite run_unfold. unfold bind at 1, request at 1.
    f_equal. unfold emit, extend. cbn. by rewrite <-!app_assoc.
Qed.

Lemma retry_sleeps_witness :
  run default_cfg "HADOOP" "project=HADOOP" (LoopState 0 0 None None)
    [Response 500 (Page None Absent); Response 500 (Page None Absent);
     Response 200 (Page (Some []) Absent)] (World ∅ ∅ ∅ [])
  = (Ret Done,
     World ∅ ∅ ∅ [Request "project=HADOOP" 50 0; Sleep 1;
                  Request "project=HADOOP" 50 0; Sleep 2;
                  Request "project=HADOOP" 50 0]) ∧
  run default_cfg "HADOOP" "project=HADOOP" (LoopState 0 0 None None)
    [Response 429 (Page None Absent); Response 429 (Page None Absent);
     Response 200 (Page (Some []) Absent)] (World ∅ ∅ ∅ [])
  = (Ret Done,
     World ∅ ∅ ∅ [Request "project=HADOOP" 50 0; Sleep 30;
                  Request "project=HADOOP" 50 0; Sleep 30;
                  Request "project=HADOOP" 50 0]).
Proof.
  destruct (retry_sleeps default_cfg "HADOOP" "project=HADOOP" (LoopState 0 0 None None)
              (World ∅ ∅ ∅ [])) as (_ & _ & _ & _ & H429 & H500).
  split.
  - rewrite H500; [reflexivity|cbn; lia..].
  - rewrite H429; [reflexivity|cbn; lia..].
Defined.

(** ** Retry exhaustion *)

Lemma same_files_noise w0 : ignores_noise (same_files w0).
Proof. intros ev w _ H. exact H. Qed.

Lemma same_files_refl w : same_files w w.
Proof. by repeat split. Qed.

Lemma same_files_trans w0 w1 w2 : same_files w0 w1 → same_files w1 w2 → same_files w0 w2.
Proof. intros (?&?&?) (?&?&?). repeat split; congruence. Qed.

(** What [load_checkpoint] returns depends on the files only. *)
Lemma load_checkpoint_same_files project w0 w :
  same_files w0 w → fst (load_checkpoint project w) = fst (load_checkpoint project w0).
Proof.
  intros (Hj & Ht & _). unfold load_checkpoint, bind, read_json, read_legacy. cbn.
  rewrite Hj. destruct (ckpt_json w0 !! project) as [[ck|e]|]; cbn; [done| |].
  - destruct (_ || _); cbn; [|done]. rewrite Ht.
    destruct (ckpt_txt w0 !! project) as [[n|e']|]; cbn; [done| |done].
    by destruct (_ || _).
  - rewrite Ht. destruct (ckpt_txt w0 !! project) as [[n|e']|]; cbn; [done| |done].
    by destruct (_ || _).
Qed.

Lemma count_requests_emit (ev : event) (w : world) :
  count_requests (trace (emit ev w))
  = (count_requests (trace w) + if is_Request ev then 1 else 0)%nat.
Proof.
  unfold emit. cbn [trace]. rewrite count_requests_app. f_equal. by destruct ev.
Qed.

Lemma last_emit (ev : event) (w : world) : last (trace (emit ev w)) = Some ev.
Proof. unfold emit. cbn [trace]. apply last_snoc. Qed.

Lemma run_always_500 cfg project jql (n : nat) : ∀ st remote w,
  0 ≤ cfg_backoff_base cfg →
  0 ≤ attempt st →
  attempt st + Z.of_nat (S n) = cfg_max_retries cfg + 1 →
  (S n ≤ length remote)%nat →
  always_500 remote →
  ∃ w', run cfg project jql st remote w = (Raise (RuntimeError (error_msg project st)), w') ∧
        same_files w w' ∧
        count_requests (trace w') = (count_requests (trace w) + S n)%nat ∧
        last (trace w') = Some (LogError (error_msg project st)).
Proof.
  induction n as [|n IH]; intros st remote w Hb Ha Hn Hlen Hall;
    (destruct remote as [|r remote]; [cbn in Hlen; lia|]);
    apply Forall_cons in Hall as [[data ->] Hall].
  - eexists. split; [|split; [|split]].
    + rewrite run_unfold. unfold bind at 1, request at 1. unfold bind at 1.
      rewrite on_reply_5xx, check_retries_eq; [|lia|by apply Z.pow_nonneg].
      cbn [attempt with_attempt].
      rewrite (proj2 (Z.gtb_lt _ _)); [reflexivity|lia].
    + by repeat split.
    + rewrite !count_requests_emit. cbn. lia.
    + apply last_emit.
  - rewrite (run_retry _ _ _ _ _ _ _ (cfg_backoff_base cfg ^ attempt st));
      [|apply on_reply_5xx; [lia|by apply Z.pow_nonneg]|lia].
    edestruct (IH (with_attempt st (attempt st + 1)) remote) as (w' & Hrun & Hf & Hc & Hl);
      [done|cbn; lia|cbn; lia|cbn in Hlen; lia|done|].
    exists w'. split; [exact Hrun|]. split; [exact Hf|]. split; [|exact Hl].
    rewrite Hc, !count_requests_emit. cbn. lia.
Qed.

Section Exhaustion.

Variable strftime_ymd : Z → string.

(** C2: when every request is answered with status 500, the run raises the
    [RuntimeError] whose message names the project and the offset, after
    exactly [max_retries + 1] requests, and leaves every file, hence the
    checkpoint, as it was before the run. *)
Theorem always_500_exhausts_retries (today : Z) (project : string) (cfg : config)
    (remote : list reply) (w w0 : world) (ck : checkpoint) :
  load_checkpoint project w = (Ret ck, w0) →
  0 ≤ cfg_max_retries cfg →
  0 ≤ cfg_backoff_base cfg →
  always_500 remote →
  cfg_max_retries cfg < Z.of_nat (length remote) →
  ∃ w', fetch_issues_for_project strftime_ymd today project cfg remote w
        = (Raise (RuntimeError ("Max retries exceeded for project " +:+ project
                                +:+ " at startAt=" +:+ str (get_start_at ck))), w') ∧
        same_files w w' ∧
        fst (load_checkpoint project w') = Ret ck ∧
        count_requests (trace w')
        = (count_requests (trace w) + Z.to_nat (cfg_max_retries cfg + 1))%nat.
Proof.
  intros Hload Hmax Hb Hall Hlen.
  assert (same_files w w0) as Hf0.
  { eapply (preserves_load_checkpoint (same_files w));
      [apply same_files_noise|exact Hload|apply same_files_refl]. }
  assert (count_requests (trace w0) = count_requests (trace w)) as Hc0.
  { destruct (preserves_load_checkpoint (no_request_since (trace w)) project
                (no_request_since_noise _) _ _ _ Hload (no_request_since_start w))
      as (evs & -> & Hq).
    rewrite count_requests_app, (count_requests_quiet _ Hq). lia. }
  unfold fetch_issues_for_project. unfold bind at 1. rewrite Hload.
  set (jql := build_jql _ _ _ _ _ _).
  destruct (run_always_500 cfg project jql (Z.to_nat (cfg_max_retries cfg))
              (LoopState (get_start_at ck) 0 None None) remote w0)
    as (w' & Hrun & Hf & Hc & _); [done|done|cbn; lia|lia|done|].
  exists w'. split; [exact Hrun|]. split; [by eapply same_files_trans|]. split.
  - rewrite (load_checkpoint_same_files project w w'); [|by eapply same_files_trans].
    by rewrite Hload.
  - rewrite Hc, Hc0. lia.
Qed.

End Exhaustion.

Lemma always_500_exhausts_retries_witness :
  ∃ w', fetch_issues_for_project ymd_of_days 20100 "HADOOP" default_cfg
          (replicate 6 (Response 500 (Page None Absent))) resumed_store
        = (Raise (RuntimeError "Max retries exceeded for project HADOOP at startAt=50"), w') ∧
        same_files resumed_store w' ∧
        fst (load_checkpoint "HADOOP" w')
        = Ret (Checkpoint (Some 50) (Some "2025-01-15T12:34:56.789Z")) ∧
        count_requests (trace w') = 6%nat.
Proof.
  apply (always_500_exhausts_retries ymd_of_days 20100 "HADOOP" default_cfg
           (replicate 6 (Response 500 (Page None Absent))) resumed_store resumed_store
           (Checkpoint (Some 50) (Some "2025-01-15T12:34:56.789Z"))).
  - reflexivity.
  - cbn. lia.
  - cbn. lia.
  - repeat constructor; by eexists.
  - cbn. lia.
Defined.

(** ** The watermark of a page *)

Lemma string_le_nonempty (c : ascii) (l v : string) :
  (String c l ≤ v)%string → v ≠ EmptyString.
Proof. intros H ->. exact H. Qed.

Lemma string_ltb_le (l u : string) : String.ltb l u = true → (l ≤ u)%string.
Proof.
  unfold String.le, String.leb, String.ltb. by destruct (String.compare l u).
Qed.

Lemma string_not_ltb_le (l u : string) : String.ltb l u = false → (u ≤ l)%string.
Proof.
  unfold String.le, String.leb, String.ltb. rewrite (String.compare_antisym l u).
  by destruct (String.compare u l).
Qed.

Lemma wm_le_refl (a : option string) : wm_le a a.
Proof. destruct a as [[|c l]|]; cbn; eauto. Qed.

Lemma wm_le_trans (a b c : option string) : wm_le a b → wm_le b c → wm_le a c.
Proof.
  destruct a as [[|ca la]|]; cbn; [done| |done].
  intros (v & -> & Hv) Hbc.
  destruct v as [|cv lv]; [by apply string_le_nonempty in Hv|].
  destruct Hbc as (x & -> & Hx). exists x. split; [done|]. by etrans.
Qed.

Lemma track_update_ge_latest (latest : option string) (i : issue) :
  wm_le latest (track_update latest i).
Proof.
  unfold track_update. destruct (updated i) as [[|c u]|]; cbn; try apply wm_le_refl.
  destruct latest as [[|cl l]|]; cbn; [done| |done].
  destruct (String.ltb (String cl l) (String c u)) eqn:E.
  - eexists. split; [done|]. by apply string_ltb_le.
  - eauto.
Qed.

Lemma track_update_ge_updated (latest : option string) (i : issue) :
  wm_le (updated i) (track_update latest i).
Proof.
  unfold track_update. destruct (updated i) as [[|c u]|]; cbn; [done| |done].
  destruct latest as [[|cl l]|]; cbn; [eauto| |eauto].
  destruct (String.ltb (String cl l) (String c u)) eqn:E.
  - eauto.
  - eexists. split; [done|]. by apply string_not_ltb_le.
Qed.

(** Within a run the value only grows. *)
Lemma fold_track_update_ge_latest (records : list issue) (latest : option string) :
  wm_le latest (fold_left track_update records latest).
Proof.
  revert latest. induction records as [|i l IH]; intros latest; cbn;
    [apply wm_le_refl|].
  eapply wm_le_trans; [apply track_update_ge_latest|apply IH].
Qed.

Lemma fold_track_update_ge_updated (records : list issue) (latest : option string) (i : issue) :
  i ∈ records → wm_le (updated i) (fold_left track_update records latest).
Proof.
  revert latest. induction records as [|j l IH]; intros latest Hi; [by inversion Hi|].
  cbn. apply elem_of_cons in Hi as [->|Hi]; [|by apply IH].
  eapply wm_le_trans; [apply track_update_ge_updated|apply fold_track_update_ge_latest].
Qed.

(** The value is the one of before, or the [updated] string of a record. *)
Lemma fold_track_update_attained (records : list issue) (latest : option string) :
  fold_left track_update records latest = latest ∨
  ∃ i u, i ∈ records ∧ updated i = Some u ∧ u ≠ EmptyString ∧
         fold_left track_update records latest = Some u.
Proof.
  revert latest. induction records as [|j l IH]; intros latest; cbn; [by left|].
  destruct (IH (track_update latest j)) as [->|(i & u & Hi & Hu & Hne & ->)].
  - unfold track_update. destruct (updated j) as [u|] eqn:Eu; [|by left].
    destruct (_ && _) eqn:E; [|by left].
    right. exists j, u. split; [by left|]. repeat split; [done|].
    intros ->. done.
  - right. exists i, u. split; [by right|]. done.
Qed.



(** ** Ingesting a page *)

Lemma emit_neq (ev : event) (w : world) : emit ev w ≠ w.
Proof.
  intros H. apply (f_equal (λ x, length (trace x))) in H. cbn in H.
  rewrite length_app in H. cbn in H. lia.
Qed.

Lemma emit_emit_neq (ev1 ev2 : event) (w : world) : emit ev2 (emit ev1 w) ≠ w.
Proof.
  intros H. apply (f_equal (λ x, length (trace x))) in H. cbn in H.
  rewrite !length_app in H. cbn in H. lia.
Qed.

(** A load that logged nothing gives the same result, and logs nothing, in
    every world with the same files. *)
Lemma load_checkpoint_quiet project w0 w r :
  load_checkpoint project w0 = (r, w0) →
  ckpt_json w = ckpt_json w0 →
  ckpt_txt w = ckpt_txt w0 →
  load_checkpoint project w = (r, w).
Proof.
  intros H Hj Ht. revert H.
  unfold load_checkpoint, bind, read_json, read_legacy, log_error, ret, raise.
  cbn. rewrite Hj.
  destruct (ckpt_json w0 !! project) as [[ck|e]|]; cbn.
  - by intros [= <-].
  - destruct (_ || _); cbn; [|by intros [= <-]]. rewrite Ht.
    destruct (ckpt_txt w0 !! project) as [[n|e']|]; cbn.
    + intros [= _ H]. by apply emit_neq in H.
    + destruct (_ || _); cbn.
      * intros [= _ H]. by apply emit_emit_neq in H.
      * intros [= _ H]. by apply emit_neq in H.
    + intros [= _ H]. by apply emit_neq in H.
  - rewrite Ht. destruct (ckpt_txt w0 !! project) as [[n|e']|]; cbn.
    + by intros [= <-].
    + destruct (_ || _); cbn.
      * intros [= _ H]. by apply emit_neq in H.
      * by intros [= <-].
    + by intros [= <-].
Qed.

(** A load that logged nothing and raised nothing did not meet a JSON
    record that could not be opened. *)
Lemma load_checkpoint_quiet_opens project w ck :
  load_checkpoint project w = (Ret ck, w) → json_opens project w.
Proof.
  intros H e He. revert H.
  unfold load_checkpoint, bind, read_json, read_legacy, log_error, ret, raise.
  cbn. rewrite He.
  destruct (is_IOError e); [|done]. rewrite orb_true_r. cbn.
  destruct (ckpt_txt w !! project) as [[n|e']|]; cbn.
  - intros [= _ H]. by apply emit_neq in H.
  - destruct (_ || _); cbn.
    + intros [= _ H]. by apply emit_emit_neq in H.
    + done.
  - intros [= _ H]. by apply emit_neq in H.
Qed.

Lemma save_checkpoint_quiet (project : string) (cursor : Z) (w : world) (ck : checkpoint) :
  load_checkpoint project w = (Ret ck, w) →
  save_checkpoint project cursor None w
  = (Ret tt, persisted project cursor (last_updated ck) w).
Proof.
  intros Hl. unfold save_checkpoint. unfold bind at 1.
  unfold bind at 1. rewrite Hl. unfold ret at 1.
  apply write_both. by eapply load_checkpoint_quiet_opens.
Qed.

Lemma save_checkpoint_eq (project : string) (cursor : Z) (latest : option string)
    (w : world) (ck : checkpoint) :
  load_checkpoint project w = (Ret ck, w) →
  save_checkpoint project cursor latest w
  = (Ret tt, persisted project cursor
               (match latest with Some u => Some u | None => last_updated ck end) w).
Proof.
  intros Hl. destruct latest; [|by apply save_checkpoint_quiet].
  apply save_checkpoint_given. by eapply load_checkpoint_quiet_opens.
Qed.

(** A page with records, ingested in a world whose checkpoint loads without
    complaint: the raw page and the checkpoint are written, the polite
    delay is slept, and the loop goes on unless the total is reached. *)
Lemma ingest_persists cfg project st data w records ck :
  default [] (issues data) = records →
  records ≠ [] →
  0 ≤ cfg_polite_delay cfg →
  load_checkpoint project w = (Ret ck, w) →
  let latest := fold_left track_update records (latest_update_seen st) in
  let cursor := cur_start_at st + Z.of_nat (length records) in
  let wm := match latest with Some u => Some u | None => last_updated ck end in
  ingest cfg project st data w
  = (Ret (if match last_known_total st data with Some t => cursor >=? t | None => false end
          then Break
          else Again (LoopState cursor 0 latest (last_known_total st data))),
     emit (Sleep (cfg_polite_delay cfg))
       (persisted project cursor wm (stored_page project (cur_start_at st) records w))).
Proof.
  intros Hrec Hne Hpd Hl. cbv zeta. unfold ingest. rewrite Hrec.
  change (get_total data (cur_total st)) with (last_known_total st data).
  destruct records as [|i l] eqn:E; [done|]. rewrite <-E.
  unfold bind at 1, save_raw_issues at 1. unfold bind at 1.
  rewrite (save_checkpoint_eq _ _ _ _ ck);
    [|by eapply load_checkpoint_quiet].
  unfold bind at 1. rewrite (sleep_nonneg _ _ Hpd).
  by destruct (last_known_total st data) as [t|]; [destruct (_ >=? t)|].
Qed.

(** ** Termination of the loop *)

Lemma ingest_reaches_total cfg project st data w s w' t :
  ingest cfg project st data w = (Ret s, w') →
  last_known_total st data = Some t →
  t ≤ cur_start_at st + Z.of_nat (length (default [] (issues data))) →
  s = Break.
Proof.
  unfold ingest. change (get_total data (cur_total st)) with (last_known_total st data).
  intros H Ht Hle.
  destruct (default [] (issues data)) as [|i l]; [by injection H as <- _|].
  rewrite Ht in H. unfold bind in H.
  destruct (save_raw_issues _ _ _ _) as [[[]|e1] w1]; [|done].
  destruct (save_checkpoint _ _ _ _) as [[[]|e2] w2]; [|done].
  destruct (sleep _ _) as [[[]|e3] w3]; [|done].
  rewrite (proj2 (Z.geb_le _ _) Hle) in H. by injection H as <- _.
Qed.

(** C7: after a 200 reply whose page is empty, and after a page whose
    ingestion brings the cursor to the last known total or beyond, the run
    is [Done]: the request that fetched this page is the last one, whatever
    the remote would have answered next.  The last known total is the
    value of the loop's variable [total] after line 276: that of the page,
    or the one of an earlier page when this page has no such key; a page
    that gives [null] for the key leaves the loop without a total.  The
    third part spells out the world such an ingestion leaves when the
    polite delay is not negative and the checkpoint loads without
    complaint. *)
Theorem loop_ends_when_exhausted (cfg : config) (project jql : string) (st : loop_state)
    (data : page) (remote : list reply) (w : world) :
  let w1 := emit (Request jql (cfg_max_results cfg) (cur_start_at st)) w in
  let records := default [] (issues data) in
  (records = [] →
     run cfg project jql st (Response 200 data :: remote) w = (Ret Done, w1) ∧
     count_requests (trace w1) = (count_requests (trace w) + 1)%nat) ∧
  (∀ s w2 t,
     on_reply cfg project st (Response 200 data) w1 = (Ret s, w2) →
     last_known_total st data = Some t →
     t ≤ cur_start_at st + Z.of_nat (length records) →
     run cfg project jql st (Response 200 data :: remote) w = (Ret Done, w2) ∧
     count_requests (trace w2) = (count_requests (trace w) + 1)%nat) ∧
  (∀ ck t,
     records ≠ [] →
     0 ≤ cfg_polite_delay cfg →
     load_checkpoint project w = (Ret ck, w) →
     last_known_total st data = Some t →
     t ≤ cur_start_at st + Z.of_nat (length records) →
     let latest := fold_left track_update records (latest_update_seen st) in
     run cfg project jql st (Response 200 data :: remote) w
     = (Ret Done,
        emit (Sleep (cfg_polite_delay cfg))
          (persisted project (cur_start_at st + Z.of_nat (length records))
             (match latest with Some u => Some u | None => last_updated ck end)
             (stored_page project (cur_start_at st) records w1)))).
Proof.
  intros w1 records. split; [|split].
  - intros Hnil. split.
    + rewrite run_unfold. unfold bind at 1, request at 1. fold w1.
      unfold bind, on_reply. cbn [Z.eqb Pos.eqb]. unfold ingest. fold records.
      by rewrite Hnil.
    + subst w1. rewrite count_requests_emit. reflexivity.
  - intros s w2 t Hreply Ht Hle.
    assert (s = Break) as ->.
    { cbn in Hreply. eapply ingest_reaches_total; eauto. }
    split.
    + rewrite run_unfold. unfold bind at 1, request at 1. fold w1.
      unfold bind at 1. by rewrite Hreply.
    + destruct (on_reply_sends_nothing _ _ _ _ _ _ _ Hreply) as (evs & -> & Hq).
      rewrite count_requests_app, (count_requests_quiet _ Hq).
      subst w1. rewrite count_requests_emit. cbn. lia.
  - intros ck t Hne Hpd Hload Ht Hle latest.
    rewrite run_unfold. unfold bind at 1, request at 1. fold w1.
    unfold bind at 1. cbn [on_reply Z.eqb Pos.eqb].
    rewrite (ingest_persists _ _ _ _ _ records ck eq_refl Hne Hpd);
      [|by eapply load_checkpoint_quiet].
    rewrite Ht. by rewrite (proj2 (Z.geb_le _ _) Hle).
Qed.

Lemma loop_ends_when_exhausted_witness :
  (run default_cfg "HADOOP" "project=HADOOP" (LoopState 0 0 None None)
     [Response 200 (Page (Some []) (Given 7)); Response 200 (Page (Some two_records) Absent)]
     (World ∅ ∅ ∅ [])
   = (Ret Done, World ∅ ∅ ∅ [Request "project=HADOOP" 50 0])) ∧
  (fst (run default_cfg "HADOOP" "project=HADOOP" (LoopState 0 0 None None)
          [Response 200 (Page (Some two_records) (Given 2));
           Response 200 (Page (Some two_records) (Given 4))]
          (World ∅ ∅ ∅ []))
   = Ret Done).
Proof.
  split.
  - destruct (loop_ends_when_exhausted default_cfg "HADOOP" "project=HADOOP"
                (LoopState 0 0 None None) (Page (Some []) (Given 7))
                [Response 200 (Page (Some two_records) Absent)] (World ∅ ∅ ∅ []))
      as [H _].
    exact (proj1 (H eq_refl)).
  - destruct (loop_ends_when_exhausted default_cfg "HADOOP" "project=HADOOP"
                (LoopState 0 0 None None) (Page (Some two_records) (Given 2))
                [Response 200 (Page (Some two_records) (Given 4))] (World ∅ ∅ ∅ []))
      as (_ & _ & H).
    rewrite (H zero_checkpoint 2);
      [reflexivity|discriminate|cbn; lia|reflexivity|reflexivity|cbn; lia].
Defined.

(** Without a total the loop does not end on a page that has records: a
    first page without the key [total], and any page that gives [null] for
    it, is followed by another request. *)
Lemma ingest_without_total_goes_on cfg project st data w s w' :
  default [] (issues data) ≠ [] →
  ingest cfg project st data w = (Ret s, w') →
  last_known_total st data = None →
  s = Again (LoopState (cur_start_at st + Z.of_nat (length (default [] (issues data)))) 0
               (fold_left track_update (default [] (issues data)) (latest_update_seen st))
               None).
Proof.
  unfold ingest. change (get_total data (cur_total st)) with (last_known_total st data).
  intros Hne H Ht.
  destruct (default [] (issues data)) as [|i l]; [done|].
  rewrite Ht in H. unfold bind in H.
  destruct (save_raw_issues _ _ _ _) as [[[]|e1] w1]; [|done].
  destruct (save_checkpoint _ _ _ _) as [[[]|e2] w2]; [|done].
  destruct (sleep _ _) as [[[]|e3] w3]; [|done].
  by injection H as <- _.
Qed.

Lemma null_total_is_no_total (st : loop_state) (data : page) :
  total data = Null → last_known_total st data = None.
Proof. unfold last_known_total. by intros ->. Qed.

(** A [null] total is not an absent one: [data.get("total", total)] takes
    it over, line 368 then has no total to compare with, and the loop goes
    on where a page without the key would have ended it. *)
Example null_total_sends_another_request :
  count_requests (trace (snd (run default_cfg "HADOOP" "project=HADOOP"
    (LoopState 0 0 None None)
    [Response 200 (Page (Some two_records) (Given 4));
     Response 200 (Page (Some two_records) Null);
     Response 200 (Page (Some []) Absent)] (World ∅ ∅ ∅ [])))) = 3%nat ∧
  count_requests (trace (snd (run default_cfg "HADOOP" "project=HADOOP"
    (LoopState 0 0 None None)
    [Response 200 (Page (Some two_records) (Given 4));
     Response 200 (Page (Some two_records) Absent);
     Response 200 (Page (Some []) Absent)] (World ∅ ∅ ∅ [])))) = 2%nat.
Proof. split; vm_compute; reflexivity. Qed.

Section FirstPage.

Variable strftime_ymd : Z → string.

(** C9: from the zero checkpoint and with [incremental] on, the query
    restricts to records updated on or after the date [lookback_days] days
    before today; once the first page is ingested the checkpoint on record
    has the number of its records as cursor, and as watermark the greatest
    of their [updated] strings in the order of strings (none when no
    record has one). *)
Theorem first_page_checkpoint (today : Z) (project : string) (cfg : config) (data : page)
    (records : list issue) (w : world) :
  load_checkpoint project w = (Ret zero_checkpoint, w) →
  cfg_incremental cfg = true →
  0 ≤ cfg_polite_delay cfg →
  default [] (issues data) = records →
  records ≠ [] →
  let jql := "project=" +:+ project +:+ " AND updated >= '"
             +:+ strftime_ymd (today - cfg_lookback_days cfg) +:+ "'" in
  let watermark := fold_left track_update records None in
  ∃ r w',
    fetch_issues_for_project strftime_ymd today project cfg [Response 200 data] w
    = (Ret r, w') ∧
    (∃ evs, trace w' = trace w ++ Request jql (cfg_max_results cfg) 0 :: evs) ∧
    load_checkpoint project w'
    = (Ret (Checkpoint (Some (Z.of_nat (length records))) watermark), w') ∧
    (∀ i, i ∈ records → wm_le (updated i) watermark) ∧
    (watermark = None ∨ ∃ i u, i ∈ records ∧ updated i = Some u ∧ watermark = Some u).
Proof.
  intros Hload Hinc Hpd Hrec Hne jql watermark.
  assert (∃ r w',
    fetch_issues_for_project strftime_ymd today project cfg [Response 200 data] w
    = (Ret r, w') ∧
    ckpt_json w' !! project
    = Some (Holds (Checkpoint (Some (Z.of_nat (length records))) watermark)))
    as (r & w' & Hfetch & Hj).
  { unfold fetch_issues_for_project. unfold bind at 1. rewrite Hload.
    rewrite run_unfold. unfold bind at 1, request at 1. unfold bind at 1.
    cbn [on_reply Z.eqb Pos.eqb].
    rewrite (ingest_persists _ _ _ _ _ records zero_checkpoint Hrec Hne Hpd);
      [|by eapply load_checkpoint_quiet].
    cbn [latest_update_seen cur_start_at get_start_at zero_checkpoint start_at default
         last_updated]. fold watermark.
    replace (match watermark with Some u => Some u | None => None end)
      with watermark by (by destruct watermark).
    match goal with |- context [if ?b then Break else _] => destruct b end;
      eexists _, _; (split; [reflexivity|]); cbn; rewrite Z.add_0_l; apply lookup_insert_eq. }
  exists r, w'. split; [exact Hfetch|]. split; [|split; [|split]].
  - unfold fetch_issues_for_project in Hfetch. unfold bind at 1 in Hfetch.
    rewrite Hload in Hfetch. apply run_trace in Hfetch as (evs & Ht & _).
    exists evs. rewrite Ht. unfold build_jql. by rewrite Hinc.
  - by apply load_checkpoint_json.
  - intros i Hi. by apply fold_track_update_ge_updated.
  - destruct (fold_track_update_attained records None) as [H|(i & u & Hi & Hu & _ & H)];
      [by left|right; eauto].
Qed.

End FirstPage.

Lemma first_page_checkpoint_witness :
  ∃ r w',
    fetch_issues_for_project ymd_of_days 20094 "HADOOP" incremental_cfg
      [Response 200 (Page (Some three_records) (Given 120))] (World ∅ ∅ ∅ [])
    = (Ret r, w') ∧
    (∃ evs, trace w' = Request "project=HADOOP AND updated >= '2024-12-30'" 50 0 :: evs) ∧
    load_checkpoint "HADOOP" w'
    = (Ret (Checkpoint (Some 3) (Some "2025-01-03T17:45:10.000+0000")), w').
Proof.
  destruct (first_page_checkpoint ymd_of_days 20094 "HADOOP" incremental_cfg
              (Page (Some three_records) (Given 120)) three_records (World ∅ ∅ ∅ []))
    as (r & w' & Hfetch & Htrace & Hck & _);
    [reflexivity|reflexivity|cbn; lia|reflexivity|discriminate|].
  exists r, w'. split; [exact Hfetch|]. split; [exact Htrace|exact Hck].
Defined.

(** ** Pages whose records carry no [updated] value *)



Lemma reply_200_or_not (r : reply) :
  (∃ data, r = Response 200 data) ∨ (∀ data, r ≠ Response 200 data).
Proof.
  destruct r as [status data|e]; [|by right].
  destruct (decide (status = 200)) as [->|Hne]; [left; by exists data|right].
  by intros d [= ? _].
Qed.

Lemma bind_ret_inv {A B} (m : M A) (k : A → M B) (w w' : world) (b : B) :
  bind m k w = (Ret b, w') →
  ∃ a w1, m w = (Ret a, w1) ∧ k a w1 = (Ret b, w').
Proof.
  unfold bind. destruct (m w) as [[a|e] w1]; [|done]. intros H. by exists a, w1.
Qed.

Lemma check_retries_again cfg project st w st' w' :
  check_retries cfg project st w = (Ret (Again st'), w') → st' = st.
Proof.
  rewrite check_retries_eq. destruct (_ >? _); [done|]. by intros [= <- _].
Qed.

Lemma on_request_exception_again cfg project st e w st' w' :
  on_request_exception cfg project st e w = (Ret (Again st'), w') →
  st' = with_attempt st (attempt st + 1).
Proof.
  unfold on_request_exception. destruct (_ >=? _).
  - intros (x & w1 & _ & H)%bind_ret_inv. done.
  - intros (x & w1 & _ & H)%bind_ret_inv. by apply check_retries_again in H.
Qed.

(** A retry changes nothing of the loop state but the attempt counter. *)
Lemma retry_keeps_state cfg project st r w st' w' :
  (∀ data, r ≠ Response 200 data) →
  on_reply cfg project st r w = (Ret (Again st'), w') →
  latest_update_seen st' = latest_update_seen st ∧
  cur_start_at st' = cur_start_at st ∧
  cur_total st' = cur_total st.
Proof.
  intros Hne H.
  assert (st' = st ∨ st' = with_attempt st (attempt st + 1)) as [->| ->]; [|done..].
  revert H. destruct r as [status data|e]; cbn.
  - destruct (status =? 200) eqn:E200.
    { apply Z.eqb_eq in E200 as ->. by destruct (Hne data). }
    destruct (status =? 429).
    { intros (x & w1 & _ & H)%bind_ret_inv. right. by apply check_retries_again in H. }
    destruct (_ && _).
    { intros (x & w1 & _ & H)%bind_ret_inv. right. by apply check_retries_again in H. }
    intros (x & w1 & _ & H)%bind_ret_inv. destruct (_ && _).
    + right. by apply on_request_exception_again in H.
    + left. by apply check_retries_again in H.
  - destruct (is_Timeout e).
    { intros (x & w1 & _ & H)%bind_ret_inv. right. by apply check_retries_again in H. }
    destruct (is_RequestException e); [|done].
    intros H. right. by apply on_request_exception_again in H.
Qed.


Section NoUpdates.

Variable strftime_ymd : Z → string.


End NoUpdates.


Example records_without_updated_cursor :
  fst (load_checkpoint "HADOOP"
         (snd (fetch_issues_for_project ymd_of_days 20100 "HADOOP" default_cfg
                 bare_remote resumed_store)))
  = Ret (Checkpoint (Some 54) (Some "2025-01-15T12:34:56.789Z")).
Proof. reflexivity. Qed.

(** ** The watermark across runs *)

(** C1 does not hold of the code: [latest_update_seen] starts at [None] in
    every run, so the first page a resumed run ingests replaces the
    watermark on record by the greatest [updated] value of that page alone.
    Here both runs end [Done]; the second one asks for the records updated
    since 2025-01-03, at offset 1, and the watermark on record goes from
    17:45:10 back to 08:00:00 of that day. *)
Theorem watermark_rolls_back_on_resume :
  fetch_issues_for_project ymd_of_days 20093 "HADOOP" incremental_cfg first_run
    (World ∅ ∅ ∅ [])
  = (Ret Done, after_first_run) ∧
  trace after_first_run
  = [Request "project=HADOOP AND updated >= '2024-12-29'" 50 0; Sleep 2] ∧
  load_checkpoint "HADOOP" after_first_run
  = (Ret (Checkpoint (Some 1) (Some "2025-01-03T17:45:10.000+0000")), after_first_run) ∧
  fetch_issues_for_project ymd_of_days 20094 "HADOOP" incremental_cfg second_run
    after_first_run
  = (Ret Done, after_second_run) ∧
  trace after_second_run
  = trace after_first_run
    ++ [Request "project=HADOOP AND updated >= '2025-01-03'" 50 1; Sleep 2] ∧
  load_checkpoint "HADOOP" after_second_run
  = (Ret (Checkpoint (Some 2) (Some "2025-01-03T08:00:00.000+0000")), after_second_run) ∧
  String.ltb "2025-01-03T08:00:00.000+0000" "2025-01-03T17:45:10.000+0000" = true ∧
  ¬ wm_le (Some "2025-01-03T17:45:10.000+0000") (Some "2025-01-03T08:00:00.000+0000").
Proof.
  repeat (split; [reflexivity|]).
  intros (v & [= <-] & H). exact H.
Qed.

(** Within a run the watermark on record only grows: a page ingested after
    the run has seen the timestamp [l] leaves a watermark at or above [l]
    on record. *)
Lemma ingest_advances_watermark cfg project st data w records ck l :
  default [] (issues data) = records →
  records ≠ [] →
  0 ≤ cfg_polite_delay cfg →
  load_checkpoint project w = (Ret ck, w) →
  latest_update_seen st = Some l →
  l ≠ EmptyString →
  ∃ s w' v,
    ingest cfg project st data w = (Ret s, w') ∧
    ckpt_json w' !! project
    = Some (Holds (Checkpoint (Some (cur_start_at st + Z.of_nat (length records))) (Some v))) ∧
    (l ≤ v)%string.
Proof.
  intros Hrec Hne Hpd Hl Hlatest Hnonempty.
  pose proof (fold_track_update_ge_latest records (latest_update_seen st)) as Hge.
  rewrite Hlatest in Hge. destruct l as [|c l]; [done|].
  destruct Hge as (v & Hv & Hle).
  eexists _, _, v. split; [by apply (ingest_persists _ _ _ _ _ records ck)|].
  split; [|exact Hle]. rewrite Hlatest, Hv. cbn. apply lookup_insert_eq.
Qed.

(** * Further properties of the fetch loop *)

(** ** The retry budget *)

Lemma count_sleeps_app (t1 t2 : list event) :
  count_sleeps (t1 ++ t2) = (count_sleeps t1 + count_sleeps t2)%nat.
Proof. unfold count_sleeps. by rewrite filter_app, length_app. Qed.

Lemma count_sleeps_emit (ev : event) (w : world) :
  count_sleeps (trace (emit ev w))
  = (count_sleeps (trace w) + if is_Sleep ev then 1 else 0)%nat.
Proof.
  unfold emit. cbn [trace]. rewrite count_sleeps_app. f_equal. by destruct ev.
Qed.

Lemma on_reply_retryable cfg project st r :
  retryable r →
  0 ≤ cfg_rate_limit_sleep cfg →
  0 ≤ cfg_backoff_base cfg →
  0 ≤ attempt st →
  ∃ seconds, ∀ w,
    on_reply cfg project st r w
    = check_retries cfg project (with_attempt st (attempt st + 1)) (emit (Sleep seconds) w).
Proof.
  intros [[data ->]|[(status & data & -> & Hs)| ->]] Hrl Hb Ha.
  - exists (cfg_rate_limit_sleep cfg). intros w. by apply on_reply_429.
  - exists (cfg_backoff_base cfg ^ attempt st). intros w.
    apply on_reply_5xx; [done|]. by apply Z.pow_nonneg.
  - exists (cfg_backoff_base cfg ^ attempt st). intros w.
    apply on_reply_timeout. by apply Z.pow_nonneg.
Qed.

Lemma run_retryable_exhausts cfg project jql (n : nat) : ∀ st remote w,
  0 ≤ cfg_rate_limit_sleep cfg →
  0 ≤ cfg_backoff_base cfg →
  0 ≤ attempt st →
  attempt st + Z.of_nat (S n) = cfg_max_retries cfg + 1 →
  (S n ≤ length remote)%nat →
  Forall retryable remote →
  ∃ w', run cfg project jql st remote w = (Raise (RuntimeError (error_msg project st)), w') ∧
        same_files w w' ∧
        count_requests (trace w') = (count_requests (trace w) + S n)%nat ∧
        count_sleeps (trace w') = (count_sleeps (trace w) + S n)%nat.
Proof.
  induction n as [|n IH]; intros st remote w Hrl Hb Ha Hn Hlen Hall;
    (destruct remote as [|r remote]; [cbn in Hlen; lia|]);
    apply Forall_cons in Hall as [Hr Hall];
    destruct (on_reply_retryable cfg project st r Hr Hrl Hb Ha) as [seconds Hreply].
  - eexists. split; [|split; [|split]].
    + rewrite run_unfold. unfold bind at 1, request at 1. unfold bind at 1.
      rewrite Hreply, check_retries_eq. cbn [attempt with_attempt].
      rewrite (proj2 (Z.gtb_lt _ _)); [reflexivity|lia].
    + by repeat split.
    + rewrite !count_requests_emit. cbn. lia.
    + rewrite !count_sleeps_emit. cbn. lia.
  - rewrite (run_retry _ _ _ _ _ _ _ seconds); [|apply Hreply|lia].
    edestruct (IH (with_attempt st (attempt st + 1)) remote) as (w' & Hrun & Hf & Hc & Hs);
      [done|done|cbn; lia|cbn; lia|cbn in Hlen; lia|done|].
    exists w'. split; [exact Hrun|]. split; [exact Hf|]. split.
    + rewrite Hc, !count_requests_emit. cbn. lia.
    + rewrite Hs, !count_sleeps_emit. cbn. lia.
Qed.

Section Budget.

Variable strftime_ymd : Z → string.

(** X1: the 429 replies, the 5xx replies and the timeouts of one page fetch
    are counted by the same attempt counter: whatever their mix, when the
    remote answers every request with one of them the run raises the
    [RuntimeError] naming the project and the offset after exactly
    [max_retries + 1] requests and as many sleeps, and changes no file. *)
Theorem retry_budget_is_shared (today : Z) (project : string) (cfg : config)
    (remote : list reply) (w w0 : world) (ck : checkpoint) :
  load_checkpoint project w = (Ret ck, w0) →
  0 ≤ cfg_max_retries cfg →
  0 ≤ cfg_rate_limit_sleep cfg →
  0 ≤ cfg_backoff_base cfg →
  Forall retryable remote →
  cfg_max_retries cfg < Z.of_nat (length remote) →
  ∃ w', fetch_issues_for_project strftime_ymd today project cfg remote w
        = (Raise (RuntimeError ("Max retries exceeded for project " +:+ project
                                +:+ " at startAt=" +:+ str (get_start_at ck))), w') ∧
        same_files w w' ∧
        count_requests (trace w')
        = (count_requests (trace w0) + Z.to_nat (cfg_max_retries cfg + 1))%nat ∧
        count_sleeps (trace w')
        = (count_sleeps (trace w0) + Z.to_nat (cfg_max_retries cfg + 1))%nat.
Proof.
  intros Hload Hmax Hrl Hb Hall Hlen.
  assert (same_files w w0) as Hf0.
  { eapply (preserves_load_checkpoint (same_files w));
      [apply same_files_noise|exact Hload|apply same_files_refl]. }
  unfold fetch_issues_for_project. unfold bind at 1. rewrite Hload.
  set (jql := build_jql _ _ _ _ _ _).
  destruct (run_retryable_exhausts cfg project jql (Z.to_nat (cfg_max_retries cfg))
              (LoopState (get_start_at ck) 0 None None) remote w0)
    as (w' & Hrun & Hf & Hc & Hs); [done|done|done|cbn; lia|lia|done|].
  exists w'. split; [exact Hrun|]. split; [by eapply same_files_trans|]. split.
  - rewrite Hc. lia.
  - rewrite Hs. lia.
Qed.

End Budget.

Lemma retry_budget_is_shared_witness :
  ∃ w', fetch_issues_for_project ymd_of_days 20100 "HADOOP" default_cfg mixed_failures
          resumed_store
        = (Raise (RuntimeError "Max retries exceeded for project HADOOP at startAt=50"), w') ∧
        same_files resumed_store w' ∧
        count_requests (trace w') = 6%nat ∧
        count_sleeps (trace w') = 6%nat.
Proof.
  apply (retry_budget_is_shared ymd_of_days 20100 "HADOOP" default_cfg mixed_failures
           resumed_store resumed_store
           (Checkpoint (Some 50) (Some "2025-01-15T12:34:56.789Z"))).
  - reflexivity.
  - cbn. lia.
  - cbn. lia.
  - cbn. lia.
  - unfold mixed_failures, retryable.
    repeat (constructor; [first [ left; by eexists
                                | right; left; eexists _, _; split; [reflexivity|lia]
                                | right; right; reflexivity ]|]).
    constructor.
  - cbn. lia.
Defined.

(** ** Client errors and failed requests *)

Lemma on_request_exception_retry cfg project st e w :
  attempt st < cfg_max_retries cfg →
  0 ≤ cfg_backoff_base cfg →
  0 ≤ attempt st →
  on_request_exception cfg project st e w
  = (Ret (Again (with_attempt st (attempt st + 1))),
     emit (Sleep (cfg_backoff_base cfg ^ attempt st)) w).
Proof.
  intros Hlt Hb Ha. unfold on_request_exception.
  destruct (attempt st >=? cfg_max_retries cfg) eqn:E; [apply Z.geb_le in E; lia|].
  unfold bind. rewrite sleep_nonneg by (by apply Z.pow_nonneg).
  rewrite check_retries_eq. cbn [attempt with_attempt].
  rewrite Z.gtb_ltb, (proj2 (Z.ltb_ge _ _)); [done|lia].
Qed.

Lemma on_request_exception_gives_up cfg project st e w :
  cfg_max_retries cfg ≤ attempt st →
  on_request_exception cfg project st e w
  = (Raise e,
     emit (LogError ("[" +:+ project +:+ "] Max retries exceeded for network error")) w).
Proof.
  intros Hle. unfold on_request_exception.
  by rewrite (proj2 (Z.geb_le _ _) Hle).
Qed.

(** A rejected reply below the limit costs one sleep; at the limit it
    raises the exception of the reply.  No file changes either way. *)
Lemma on_reply_rejected cfg project st r e w :
  rejected r e →
  0 ≤ cfg_backoff_base cfg →
  0 ≤ attempt st →
  ∃ w', same_files w w' ∧
        count_requests (trace w') = count_requests (trace w) ∧
        if attempt st <? cfg_max_retries cfg
        then on_reply cfg project st r w
             = (Ret (Again (with_attempt st (attempt st + 1))), w') ∧
             count_sleeps (trace w') = (count_sleeps (trace w) + 1)%nat
        else on_reply cfg project st r w = (Raise e, w') ∧
             count_sleeps (trace w') = count_sleeps (trace w).
Proof.
  intros [(-> & Hreq & Htime)|(status & data & -> & -> & Hs & H429)] Hb Ha.
  - cbn [on_reply]. rewrite Htime, Hreq. destruct (attempt st <? _) eqn:E.
    + apply Z.ltb_lt in E. rewrite on_request_exception_retry by done.
      eexists. split; [|split; [|split; [reflexivity|]]].
      * by repeat split.
      * rewrite count_requests_emit. cbn. lia.
      * rewrite count_sleeps_emit. cbn. lia.
    + apply Z.ltb_ge in E. rewrite on_request_exception_gives_up by done.
      eexists. split; [|split; [|split; [reflexivity|]]].
      * by repeat split.
      * rewrite count_requests_emit. cbn. lia.
      * rewrite count_sleeps_emit. cbn. lia.
  - cbn [on_reply].
    destruct (status =? 200) eqn:E1; [lia|].
    destruct (status =? 429) eqn:E2; [lia|].
    destruct ((500 <=? status) && (status <? 600)) eqn:E3; [lia|].
    destruct ((400 <=? status) && (status <? 600)) eqn:E4; [|lia].
    destruct (attempt st <? _) eqn:E; unfold bind at 1, log_error at 1; cbv beta iota.
    + apply Z.ltb_lt in E. rewrite on_request_exception_retry by done.
      eexists. split; [|split; [|split; [reflexivity|]]].
      * by repeat split.
      * rewrite !count_requests_emit. cbn. lia.
      * rewrite !count_sleeps_emit. cbn. lia.
    + apply Z.ltb_ge in E. rewrite on_request_exception_gives_up by done.
      eexists. split; [|split; [|split; [reflexivity|]]].
      * by repeat split.
      * rewrite !count_requests_emit. cbn. lia.
      * rewrite !count_sleeps_emit. cbn. lia.
Qed.

Lemma run_rejected_gives_up cfg project jql (n : nat) : ∀ st remote w,
  0 ≤ cfg_backoff_base cfg →
  0 ≤ attempt st →
  attempt st + Z.of_nat n = cfg_max_retries cfg →
  (S n ≤ length remote)%nat →
  Forall (λ r, ∃ e, rejected r e) remote →
  ∃ r e w', remote !! n = Some r ∧ rejected r e ∧
        run cfg project jql st remote w = (Raise e, w') ∧
        same_files w w' ∧
        count_requests (trace w') = (count_requests (trace w) + S n)%nat ∧
        count_sleeps (trace w') = (count_sleeps (trace w) + n)%nat.
Proof.
  induction n as [|n IH]; intros st remote w Hb Ha Hn Hlen Hall;
    (destruct remote as [|r remote]; [cbn in Hlen; lia|]);
    apply Forall_cons in Hall as [[e Hr] Hall];
    destruct (on_reply_rejected cfg project st r e
                (emit (Request jql (cfg_max_results cfg) (cur_start_at st)) w) Hr Hb Ha)
      as (w1 & Hf1 & Hc1 & Hstep).
  - rewrite (proj2 (Z.ltb_ge _ _)) in Hstep by lia. destruct Hstep as [Hstep Hs1].
    exists r, e, w1. split; [done|]. split; [done|]. split; [|split; [|split]].
    + rewrite run_unfold. unfold bind at 1, request at 1. unfold bind at 1.
      by rewrite Hstep.
    + exact Hf1.
    + rewrite Hc1, count_requests_emit. cbn. lia.
    + rewrite Hs1, count_sleeps_emit. cbn. lia.
  - rewrite (proj2 (Z.ltb_lt _ _)) in Hstep by lia. destruct Hstep as [Hstep Hs1].
    edestruct (IH (with_attempt st (attempt st + 1)) remote w1)
      as (r' & e' & w' & Hlook & Hr' & Hrun & Hf & Hc & Hs);
      [done|cbn; lia|cbn; lia|cbn in Hlen; lia|done|].
    exists r', e', w'. split; [done|]. split; [done|]. split; [|split; [|split]].
    + rewrite run_unfold. unfold bind at 1, request at 1. unfold bind at 1.
      by rewrite Hstep.
    + by eapply same_files_trans.
    + rewrite Hc, Hc1, count_requests_emit. cbn. lia.
    + rewrite Hs, Hs1, count_sleeps_emit. cbn. lia.
Qed.

Section Rejected.

Variable strftime_ymd : Z → string.

(** X2: a status from 400 to 499 other than 429, and a request that fails
    other than by a timeout, are retried with the exponential backoff like
    a server error, but the limit is checked before the sleep: when the
    remote answers every request this way the run sends [max_retries + 1]
    requests, sleeps [max_retries] times and then raises the exception of
    the last reply itself ([HTTPError] for a status), not the
    [RuntimeError] of the retry check.  No file changes. *)
Theorem rejected_replies_are_retried_then_raised (today : Z) (project : string)
    (cfg : config) (remote : list reply) (w w0 : world) (ck : checkpoint) :
  load_checkpoint project w = (Ret ck, w0) →
  0 ≤ cfg_max_retries cfg →
  0 ≤ cfg_backoff_base cfg →
  Forall (λ r, ∃ e, rejected r e) remote →
  cfg_max_retries cfg < Z.of_nat (length remote) →
  ∃ r e w',
    remote !! Z.to_nat (cfg_max_retries cfg) = Some r ∧
    rejected r e ∧
    fetch_issues_for_project strftime_ymd today project cfg remote w = (Raise e, w') ∧
    same_files w w' ∧
    count_requests (trace w')
    = (count_requests (trace w0) + Z.to_nat (cfg_max_retries cfg + 1))%nat ∧
    count_sleeps (trace w')
    = (count_sleeps (trace w0) + Z.to_nat (cfg_max_retries cfg))%nat.
Proof.
  intros Hload Hmax Hb Hall Hlen.
  assert (same_files w w0) as Hf0.
  { eapply (preserves_load_checkpoint (same_files w));
      [apply same_files_noise|exact Hload|apply same_files_refl]. }
  unfold fetch_issues_for_project. unfold bind at 1. rewrite Hload.
  set (jql := build_jql _ _ _ _ _ _).
  destruct (run_rejected_gives_up cfg project jql (Z.to_nat (cfg_max_retries cfg))
              (LoopState (get_start_at ck) 0 None None) remote w0)
    as (r & e & w' & Hlook & Hr & Hrun & Hf & Hc & Hs); [done|done|cbn; lia|lia|done|].
  exists r, e, w'. split; [done|]. split; [done|]. split; [exact Hrun|].
  split; [by eapply same_files_trans|]. split; [rewrite Hc; lia|exact Hs].
Qed.

End Rejected.

Lemma rejected_replies_are_retried_then_raised_witness :
  ∃ w', fetch_issues_for_project ymd_of_days 20100 "HADOOP" default_cfg
          (replicate 6 (Response 404 (Page None Absent))) resumed_store
        = (Raise (HTTPError 404), w') ∧
        same_files resumed_store w' ∧
        count_requests (trace w') = 6%nat ∧
        count_sleeps (trace w') = 5%nat.
Proof.
  destruct (rejected_replies_are_retried_then_raised ymd_of_days 20100 "HADOOP" default_cfg
              (replicate 6 (Response 404 (Page None Absent))) resumed_store resumed_store
              (Checkpoint (Some 50) (Some "2025-01-15T12:34:56.789Z")))
    as (r & e & w' & Hlook & Hr & Hrun & Hf & Hc & Hs).
  - reflexivity.
  - cbn. lia.
  - cbn. lia.
  - repeat constructor; exists (HTTPError 404); right; eexists _, _;
      (split; [reflexivity|]); (split; [reflexivity|]); lia.
  - cbn. lia.
  - injection Hlook as <-.
    destruct Hr as [([=] & _)|(status & data & [= <- _] & -> & _)].
    exists w'. split; [exact Hrun|]. split; [exact Hf|]. split; [exact Hc|exact Hs].
Defined.

(** ** Statuses that no branch handles *)

Lemma on_reply_unhandled cfg project st r w :
  unhandled r →
  attempt st ≤ cfg_max_retries cfg →
  ∃ msg, on_reply cfg project st r w = (Ret (Again st), emit (LogError msg) w).
Proof.
  intros (status & data & -> & H200 & H429 & Hrange) Hle. cbn [on_reply].
  destruct (status =? 200) eqn:E1; [lia|].
  destruct (status =? 429) eqn:E2; [lia|].
  destruct ((500 <=? status) && (status <? 600)) eqn:E3; [lia|].
  destruct ((400 <=? status) && (status <? 600)) eqn:E4; [lia|].
  eexists. unfold bind at 1, log_error at 1. cbv beta iota.
  rewrite check_retries_eq, Z.gtb_ltb, (proj2 (Z.ltb_ge _ _) Hle). reflexivity.
Qed.

Lemma run_unhandled_spins cfg project jql st : ∀ remote w,
  attempt st ≤ cfg_max_retries cfg →
  Forall unhandled remote →
  ∃ w', run cfg project jql st remote w = (Ret (Pending st), w') ∧
        same_files w w' ∧
        count_requests (trace w') = (count_requests (trace w) + S (length remote))%nat ∧
        count_sleeps (trace w') = count_sleeps (trace w).
Proof.
  induction remote as [|r remote IH]; intros w Hle Hall.
  - eexists. split; [reflexivity|]. split; [by repeat split|]. split.
    + rewrite count_requests_emit. cbn. lia.
    + rewrite count_sleeps_emit. cbn. lia.
  - apply Forall_cons in Hall as [Hr Hall].
    destruct (on_reply_unhandled cfg project st r
                (emit (Request jql (cfg_max_results cfg) (cur_start_at st)) w) Hr Hle)
      as [msg Hreply].
    edestruct (IH (emit (LogError msg)
                     (emit (Request jql (cfg_max_results cfg) (cur_start_at st)) w)))
      as (w' & Hrun & Hf & Hc & Hs); [done|done|].
    exists w'. split; [|split; [exact Hf|split]].
    + rewrite run_unfold. unfold bind at 1, request at 1. unfold bind at 1.
      by rewrite Hreply.
    + rewrite Hc, !count_requests_emit. cbn. lia.
    + rewrite Hs, !count_sleeps_emit. cbn. lia.
Qed.

Section Unhandled.

Variable strftime_ymd : Z → string.

(** X3: a status that is neither 200 nor 429 nor in 400..599 (a 204, a
    304, a 600) is logged as unexpected and nothing else: no sleep, no
    attempt counted.  While the remote answers only with such statuses the
    run repeats the same request at once, one request per reply, and never
    ends on its own; the retry limit does not apply. *)
Theorem unhandled_status_spins (today : Z) (project : string) (cfg : config)
    (remote : list reply) (w w0 : world) (ck : checkpoint) :
  load_checkpoint project w = (Ret ck, w0) →
  0 ≤ cfg_max_retries cfg →
  Forall unhandled remote →
  ∃ w', fetch_issues_for_project strftime_ymd today project cfg remote w
        = (Ret (Pending (LoopState (get_start_at ck) 0 None None)), w') ∧
        same_files w w' ∧
        count_requests (trace w') = (count_requests (trace w0) + S (length remote))%nat ∧
        count_sleeps (trace w') = count_sleeps (trace w0).
Proof.
  intros Hload Hmax Hall.
  assert (same_files w w0) as Hf0.
  { eapply (preserves_load_checkpoint (same_files w));
      [apply same_files_noise|exact Hload|apply same_files_refl]. }
  unfold fetch_issues_for_project. unfold bind at 1. rewrite Hload.
  set (jql := build_jql _ _ _ _ _ _).
  destruct (run_unhandled_spins cfg project jql (LoopState (get_start_at ck) 0 None None)
              remote w0) as (w' & Hrun & Hf & Hc & Hs); [done|done|].
  exists w'. split; [exact Hrun|]. split; [by eapply same_files_trans|]. done.
Qed.

End Unhandled.

Lemma unhandled_status_spins_witness :
  ∃ w', fetch_issues_for_project ymd_of_days 20100 "HADOOP" default_cfg
          (replicate 40 (Response 204 (Page None Absent))) resumed_store
        = (Ret (Pending (LoopState 50 0 None None)), w') ∧
        same_files resumed_store w' ∧
        count_requests (trace w') = 41%nat ∧
        count_sleeps (trace w') = 0%nat.
Proof.
  apply (unhandled_status_spins ymd_of_days 20100 "HADOOP" default_cfg
           (replicate 40 (Response 204 (Page None Absent))) resumed_store resumed_store
           (Checkpoint (Some 50) (Some "2025-01-15T12:34:56.789Z"))).
  - reflexivity.
  - cbn. lia.
  - apply Forall_replicate. exists 204, (Page None Absent). repeat split; lia.
Defined.

(** ** Invariants of a run *)

Lemma ignores_trace_noise (P : world → Prop) : ignores_trace P → ignores_noise P.
Proof. intros H ev w _. apply H. Qed.

(** A property of the files that every ingestion keeps, along with a
    property of the loop state that retries do not disturb, holds at the
    end of the run, however it ends. *)
Lemma run_invariant (P : world → Prop) (I : loop_state → Prop) cfg project jql :
  ignores_trace P →
  (∀ st n, I st → I (with_attempt st n)) →
  (∀ st data w r w',
     I st → P w → ingest cfg project st data w = (r, w') →
     P w' ∧ ∀ st', r = Ret (Again st') → I st') →
  ∀ remote st w r w',
    I st → P w → run cfg project jql st remote w = (r, w') → P w'.
Proof.
  intros HP HI Hingest.
  induction remote as [|rp remote IH]; intros st w r w' Hst Hw;
    rewrite run_unfold; unfold bind at 1, request at 1.
  { intros [= <- <-]. by apply HP. }
  assert (P (emit (Request jql (cfg_max_results cfg) (cur_start_at st)) w)) as Hw1
    by by apply HP.
  unfold bind at 1.
  destruct (on_reply cfg project st rp _) as [x w2] eqn:Hreply.
  assert (P w2 ∧ ∀ st', x = Ret (Again st') → I st') as [Hw2 Hst'].
  { destruct (reply_200_or_not rp) as [[data ->]|Hne].
    - cbn in Hreply. by eapply Hingest.
    - split.
      + eapply preserves_retry; [by apply ignores_trace_noise|exact Hne|exact Hreply|exact Hw1].
      + intros st' ->.
        destruct (retry_keeps_state _ _ _ _ _ _ _ Hne Hreply) as (H1 & H2 & H3).
        replace st' with (with_attempt st (attempt st')); [by apply HI|].
        destruct st, st'; cbn in *; by subst. }
  destruct x as [[st'|]|e].
  - intros Hrun. eapply IH; [by apply Hst'|exact Hw2|exact Hrun].
  - unfold ret. intros [= <- <-]. exact Hw2.
  - intros [= <- <-]. exact Hw2.
Qed.

Lemma checkpoint_at_least_trace project c : ignores_trace (checkpoint_at_least project c).
Proof. intros ev w H. exact H. Qed.

Lemma ingest_checkpoint_at_least cfg project (c : Z) st data w r w' :
  c ≤ cur_start_at st →
  checkpoint_at_least project c w →
  ingest cfg project st data w = (r, w') →
  checkpoint_at_least project c w' ∧
  ∀ st', r = Ret (Again st') → c ≤ cur_start_at st'.
Proof.
  intros Hc (c0 & wm0 & Hc0 & Hj & Ht). unfold ingest.
  destruct (default [] (issues data)) as [|i l] eqn:E.
  { intros [= <- <-]. split; [by exists c0, wm0|done]. }
  unfold bind at 1, save_raw_issues at 1. unfold bind at 1.
  erewrite (save_checkpoint_eq _ _ _ _ (Checkpoint (Some c0) wm0));
    [|by apply load_checkpoint_json].
  set (cursor := cur_start_at st + Z.of_nat (length (i :: l))).
  set (wm := match fold_left _ _ _ with Some u => Some u | None => _ end).
  assert (c ≤ cursor) as Hcur by (subst cursor; lia).
  assert (∀ w0 evs, checkpoint_at_least project c
            (extend evs (persisted project cursor wm w0))) as Hkept.
  { intros w0 evs. exists cursor, wm. split; [done|]. cbn. by rewrite !lookup_insert_eq. }
  unfold bind at 1, sleep at 1. destruct (_ <? 0).
  - intros [= <- <-]. split; [apply (Hkept _ [])|done].
  - rewrite emit_as_extend.
    destruct (match _ with Some _ => _ | None => false end); intros [= <- <-];
      (split; [apply Hkept|]); [done|].
    by intros st' [= <-].
Qed.

Section Cursor.

Variable strftime_ymd : Z → string.

(** X4: with both checkpoint files of the project on record at cursor [c],
    a run, whatever the remote answers, whatever the configuration and
    however it ends, leaves both files readable, agreeing on the cursor,
    and at a cursor that is not below [c]. *)
Theorem cursor_never_goes_back (today : Z) (project : string) (cfg : config)
    (remote : list reply) (c : Z) (wm : option string) (w : world) r w' :
  ckpt_json w !! project = Some (Holds (Checkpoint (Some c) wm)) →
  ckpt_txt w !! project = Some (Holds c) →
  fetch_issues_for_project strftime_ymd today project cfg remote w = (r, w') →
  checkpoint_at_least project c w'.
Proof.
  intros Hj Ht. unfold fetch_issues_for_project. unfold bind at 1.
  rewrite (load_checkpoint_json _ _ _ Hj).
  apply (run_invariant (checkpoint_at_least project c) (λ st, c ≤ cur_start_at st)).
  - apply checkpoint_at_least_trace.
  - by intros st n.
  - intros st data w1 r1 w1' Hst Hw1. by apply ingest_checkpoint_at_least.
  - cbn. lia.
  - by exists c, wm.
Qed.

End Cursor.

Lemma cursor_never_goes_back_witness :
  checkpoint_at_least "HADOOP" 50
    (snd (fetch_issues_for_project ymd_of_days 20110 "HADOOP" default_cfg bumpy_remote
            resumed_store)).
Proof.
  apply (cursor_never_goes_back ymd_of_days 20110 "HADOOP" default_cfg bumpy_remote 50
           (Some "2025-01-15T12:34:56.789Z") resumed_store
           (fst (fetch_issues_for_project ymd_of_days 20110 "HADOOP" default_cfg bumpy_remote
                   resumed_store))).
  - reflexivity.
  - reflexivity.
  - apply surjective_pairing.
Defined.

Example bumpy_run_checkpoint :
  fst (load_checkpoint "HADOOP"
         (snd (fetch_issues_for_project ymd_of_days 20110 "HADOOP" default_cfg bumpy_remote
                 resumed_store)))
  = Ret (Checkpoint (Some 53) (Some "2025-01-20T10:00:00.000+0000")).
Proof. reflexivity. Qed.

(** ** What a run leaves alone *)

Lemma local_save_checkpoint (P : world → Prop) (project : string) (cursor : Z)
    (wm : option string) :
  ignores_trace P → ignores_project project P →
  preserves P (save_checkpoint project cursor wm).
Proof.
  intros HT (Hj & Ht & _). unfold save_checkpoint.
  apply preserves_bind.
  { destruct wm; [apply preserves_ret|].
    apply preserves_bind; [apply preserves_load_checkpoint; by apply ignores_trace_noise|].
    intros ck. apply preserves_ret. }
  intros lu. apply preserves_bind.
  - intros w r w' [= <- <-] Hw. by apply Hj.
  - intros _ w r w' [= <- <-] Hw. by apply Ht.
Qed.

Lemma local_ingest (P : world → Prop) cfg project st data :
  ignores_trace P → ignores_project project P →
  preserves P (ingest cfg project st data).
Proof.
  intros HT HL. unfold ingest. destruct (default [] (issues data)) as [|i l];
    [apply preserves_ret|].
  apply preserves_bind.
  { intros w r w' [= <- <-] Hw. by apply HL. }
  intros _. apply preserves_bind; [by apply local_save_checkpoint|].
  intros _. apply preserves_bind; [apply preserves_sleep; by apply ignores_trace_noise|].
  intros _. destruct (match _ with Some _ => _ | None => _ end); apply preserves_ret.
Qed.

Lemma local_fetch (P : world → Prop) strftime_ymd today project cfg remote :
  ignores_trace P → ignores_project project P →
  preserves P (fetch_issues_for_project strftime_ymd today project cfg remote).
Proof.
  intros HT HL. unfold fetch_issues_for_project.
  apply preserves_bind; [apply preserves_load_checkpoint; by apply ignores_trace_noise|].
  intros ck w r w' Hrun Hw.
  eapply (run_invariant P (λ _, True)); [done|done| |done|exact Hw|exact Hrun].
  intros st data w1 r1 w1' _ Hw1 Hing. split; [|done].
  eapply local_ingest; eauto.
Qed.

Lemma others_untouched_trace project w0 : ignores_trace (others_untouched project w0).
Proof. intros ev w H. exact H. Qed.

Lemma others_untouched_project project w0 :
  ignores_project project (others_untouched project w0).
Proof.
  split; [|split].
  - intros w x H q Hq. destruct (H q Hq) as (Hj & Ht & Hr). cbn.
    by rewrite lookup_insert_ne.
  - intros w x H q Hq. destruct (H q Hq) as (Hj & Ht & Hr). cbn.
    by rewrite lookup_insert_ne.
  - intros w s x H q Hq. destruct (H q Hq) as (Hj & Ht & Hr). cbn.
    split; [done|]. split; [done|]. intros s'.
    rewrite lookup_insert_ne; [done|]. intros [= ? _]. by subst.
Qed.

Lemma others_untouched_refl project w : others_untouched project w w.
Proof. by intros q _. Qed.

(** X5: fetching a project never writes, for any other project, a
    checkpoint file or a raw page: whatever the remote answers and however
    the run ends, these files are what they were. *)
Theorem fetch_touches_own_files_only (strftime_ymd : Z → string) (today : Z)
    (project : string) (cfg : config) (remote : list reply) (w : world) :
  others_untouched project w
    (snd (fetch_issues_for_project strftime_ymd today project cfg remote w)).
Proof.
  eapply (local_fetch (others_untouched project w));
    [apply others_untouched_trace|apply others_untouched_project
    |apply surjective_pairing|apply others_untouched_refl].
Qed.

(** * Further properties of the checkpoint store *)

Lemma load_checkpoint_legacy (project : string) (w : world) (n : Z) :
  ckpt_json w !! project = None →
  ckpt_txt w !! project = Some (Holds n) →
  load_checkpoint project w = (Ret (Checkpoint (Some n) None), w).
Proof.
  intros Hj Ht. unfold load_checkpoint, bind, read_json, read_legacy; cbn.
  rewrite Hj; cbn. rewrite Ht. reflexivity.
Qed.

Lemma load_checkpoint_uncaught (project : string) (w : world) (e : exn) :
  ckpt_json w !! project = Some (Broken e) →
  is_JSONDecodeError e || is_IOError e = false →
  load_checkpoint project w = (Raise e, w).
Proof.
  intros Hj He. unfold load_checkpoint, bind, read_json; cbn.
  rewrite Hj; cbn. by rewrite He.
Qed.

(** X6: [save_checkpoint] called without a watermark depends on what
    [load_checkpoint] finds.  With no checkpoint file it writes the cursor
    with a null watermark.  With a JSON record whose content cannot be
    decoded ([JSONDecodeError]) and a readable legacy file it logs the
    failure and writes the cursor with a null watermark over that content,
    after which the checkpoint loads again without complaint.  With a JSON
    record that fails with an exception other than [JSONDecodeError] and
    [IOError] it raises that exception and writes nothing. *)
Theorem save_checkpoint_without_watermark (project : string) (cursor : Z) (w : world) :
  (ckpt_json w !! project = None → ckpt_txt w !! project = None →
     save_checkpoint project cursor None w = (Ret tt, persisted project cursor None w)) ∧
  (∀ n, ckpt_json w !! project = Some (Broken JSONDecodeError) →
     ckpt_txt w !! project = Some (Holds n) →
     let w' := persisted project cursor None
                 (emit (LogError ("Error loading JSON checkpoint for " +:+ project)) w) in
     save_checkpoint project cursor None w = (Ret tt, w') ∧
     load_checkpoint project w' = (Ret (Checkpoint (Some cursor) None), w')) ∧
  (∀ e, ckpt_json w !! project = Some (Broken e) →
     is_JSONDecodeError e || is_IOError e = false →
     save_checkpoint project cursor None w = (Raise e, w)).
Proof.
  split; [|split].
  - intros Hj Ht. apply (save_checkpoint_quiet _ _ _ zero_checkpoint).
    by apply load_checkpoint_absent.
  - intros n Hj Ht w'. split; [|apply load_persisted].
    unfold save_checkpoint. unfold bind at 1. unfold bind at 1.
    assert (load_checkpoint project w
            = (Ret (Checkpoint (Some n) None),
               emit (LogError ("Error loading JSON checkpoint for " +:+ project)) w)) as ->.
    { unfold load_checkpoint, bind, read_json, read_legacy; cbn.
      rewrite Hj; cbn. by rewrite Ht. }
    unfold ret at 1. apply write_both.
    intros e He. cbn in He. rewrite Hj in He. by injection He as <-.
  - intros e Hj He. unfold save_checkpoint, bind at 1. unfold bind at 1.
    by rewrite (load_checkpoint_uncaught _ _ _ Hj He).
Qed.

Lemma save_checkpoint_without_watermark_witness :
  save_checkpoint "HADOOP" 90 None torn_store
  = (Ret tt, persisted "HADOOP" 90 None
               (emit (LogError "Error loading JSON checkpoint for HADOOP") torn_store)).
Proof.
  destruct (save_checkpoint_without_watermark "HADOOP" 90 torn_store) as (_ & H & _).
  destruct (H 80) as [Hsave _]; [reflexivity..|exact Hsave].
Defined.

Section Unloadable.

Variable strftime_ymd : Z → string.

(** X7: a JSON checkpoint whose reading fails with an exception other than
    [JSONDecodeError] and [IOError] (bytes that are not text give
    [UnicodeDecodeError]) stops the fetch of that project before anything
    is requested: the exception leaves [fetch_issues_for_project] and the
    world is as it was.  A legacy-only checkpoint, on the other hand, is
    honoured: the first request is sent at its offset, with the query of a
    run that has no watermark. *)
Theorem fetch_and_unusual_checkpoints (today : Z) (project : string) (cfg : config)
    (remote : list reply) (w : world) :
  (∀ e, ckpt_json w !! project = Some (Broken e) →
     is_JSONDecodeError e || is_IOError e = false →
     fetch_issues_for_project strftime_ymd today project cfg remote w = (Raise e, w)) ∧
  (∀ n r w', ckpt_json w !! project = None →
     ckpt_txt w !! project = Some (Holds n) →
     fetch_issues_for_project strftime_ymd today project cfg remote w = (r, w') →
     ∃ evs, trace w'
            = trace w ++ Request (build_jql strftime_ymd today project (cfg_incremental cfg)
                                            (cfg_lookback_days cfg) None)
                                 (cfg_max_results cfg) n :: evs).
Proof.
  split.
  - intros e Hj He. unfold fetch_issues_for_project, bind.
    by rewrite (load_checkpoint_uncaught _ _ _ Hj He).
  - intros n r w' Hj Ht. unfold fetch_issues_for_project. unfold bind at 1.
    rewrite (load_checkpoint_legacy _ _ _ Hj Ht). cbn [get_start_at get_last_updated
      start_at last_updated default].
    intros (evs & Hevs & _)%run_trace. by exists evs.
Qed.

End Unloadable.

Lemma fetch_and_unusual_checkpoints_witness :
  ∃ evs, trace (snd (fetch_issues_for_project ymd_of_days 20100 "HADOOP" incremental_cfg
                       [Response 200 (Page (Some []) (Given 150))] legacy_store))
         = Request "project=HADOOP AND updated >= '2025-01-05'" 50 150 :: evs.
Proof.
  destruct (fetch_and_unusual_checkpoints ymd_of_days 20100 "HADOOP" incremental_cfg
              [Response 200 (Page (Some []) (Given 150))] legacy_store) as [_ H].
  apply (H 150 (fst (fetch_issues_for_project ymd_of_days 20100 "HADOOP" incremental_cfg
                       [Response 200 (Page (Some []) (Given 150))] legacy_store))).
  - reflexivity.
  - reflexivity.
  - apply surjective_pairing.
Defined.

(** * Further properties of the page sink and of whole runs *)

(** X8: an ingested page is stored whole under its project and the offset
    it was requested at, replacing whatever was stored there (a page
    fetched again at the same offset overwrites the first); every other
    raw page stays as it was. *)
Theorem page_is_stored_at_its_offset cfg project st data w records ck :
  default [] (issues data) = records →
  records ≠ [] →
  0 ≤ cfg_polite_delay cfg →
  load_checkpoint project w = (Ret ck, w) →
  ∃ s w',
    ingest cfg project st data w = (Ret s, w') ∧
    raw_pages w' !! (project, cur_start_at st) = Some records ∧
    ∀ k, k ≠ (project, cur_start_at st) → raw_pages w' !! k = raw_pages w !! k.
Proof.
  intros Hrec Hne Hpd Hl. eexists _, _.
  split; [by apply (ingest_persists _ _ _ _ _ records ck)|]. cbn. split.
  - apply lookup_insert_eq.
  - intros k Hk. by rewrite lookup_insert_ne.
Qed.

Lemma page_is_stored_at_its_offset_witness :
  ∃ s w',
    ingest default_cfg "HADOOP" (LoopState 50 0 None None)
      (Page (Some bare_records) (Given 60))
      (stored_page "HADOOP" 50 three_records resumed_store)
    = (Ret s, w') ∧
    raw_pages w' !! ("HADOOP", 50) = Some bare_records ∧
    ∀ k, k ≠ ("HADOOP", 50) →
         raw_pages w' !! k
         = raw_pages (stored_page "HADOOP" 50 three_records resumed_store) !! k.
Proof.
  apply (page_is_stored_at_its_offset default_cfg "HADOOP" (LoopState 50 0 None None)
           (Page (Some bare_records) (Given 60))
           (stored_page "HADOOP" 50 three_records resumed_store) bare_records
           (Checkpoint (Some 50) (Some "2025-01-15T12:34:56.789Z"))).
  - reflexivity.
  - discriminate.
  - cbn. lia.
  - reflexivity.
Defined.

Lemma fold_track_update_none_inv (records : list issue) (latest : option string) :
  fold_left track_update records latest = None → latest = None.
Proof.
  intros H. destruct (fold_track_update_attained records latest)
    as [Heq|(i & u & _ & _ & _ & Heq)]; congruence.
Qed.

Lemma run_served cfg project jql : ∀ pages st w ck,
  0 ≤ cfg_polite_delay cfg →
  Forall (λ records, records ≠ []) pages →
  cur_total st = None →
  attempt st = 0 →
  load_checkpoint project w = (Ret ck, w) →
  let latest := fold_left track_update (concat pages) (latest_update_seen st) in
  let cursor := cur_start_at st + Z.of_nat (length (concat pages)) in
  ∃ w', run cfg project jql st (served pages) w
        = (Ret (Pending (LoopState cursor 0 latest None)), w') ∧
        load_checkpoint project w'
        = (Ret (match pages with
                | [] => ck
                | _ :: _ => Checkpoint (Some cursor) (written_watermark latest ck)
                end), w').
Proof.
  induction pages as [|records pages IH]; intros st w ck Hpd Hall Htot Hatt Hload.
  - exists (emit (Request jql (cfg_max_results cfg) (cur_start_at st)) w). split.
    + destruct st as [c a l t]; cbn in *; subst.
      unfold bind, request, ret. by rewrite Z.add_0_r.
    + by eapply load_checkpoint_quiet.
  - apply Forall_cons in Hall as [Hne Hall].
    cbn [served map]. fold (served pages). rewrite run_unfold.
    unfold bind at 1, request at 1. unfold bind at 1. cbn [on_reply Z.eqb Pos.eqb].
    rewrite (ingest_persists cfg project st (Page (Some records) Absent) _ records ck
               eq_refl Hne Hpd); [|by eapply load_checkpoint_quiet].
    unfold last_known_total. cbn [total]. rewrite Htot.
    set (st1 := LoopState _ 0 _ None). set (w2 := emit _ _).
    set (ck1 := Checkpoint (Some (cur_start_at st1)) (written_watermark (latest_update_seen st1) ck)).
    destruct (IH st1 w2 ck1) as (w' & Hrun & Hload'); [done|done|done|done| |].
    { apply load_checkpoint_json. subst w2 ck1 st1. cbn. apply lookup_insert_eq. }
    exists w'. cbn zeta in *. rewrite concat_cons, fold_left_app, length_app.
    split.
    + rewrite Hrun. subst st1. cbn. do 4 f_equal. lia.
    + rewrite Hload'. do 2 f_equal. subst st1 ck1.
      cbn [cur_start_at latest_update_seen].
      destruct pages as [|p1 pages].
      * cbn. do 2 f_equal. lia.
      * f_equal; [f_equal; lia|].
        unfold written_watermark at 1.
        destruct (fold_left track_update (concat (p1 :: pages)) _) as [u|] eqn:E;
          [done|].
        apply fold_track_update_none_inv in E. cbn in E. cbn. by rewrite E.
Qed.

Section Pages.

Variable strftime_ymd : Z → string.

(** X9: over a run the pages add up.  When the remote serves one non-empty
    page after the other (and reports no total), the checkpoint on record
    after the last of them has the cursor the run started from plus the
    number of all records fetched, and as watermark the greatest [updated]
    string among all of them, or the watermark that was on record when none
    of them has one; the run is then waiting for the next page at that
    cursor. *)
Theorem run_adds_up_pages (today : Z) (project : string) (cfg : config)
    (pages : list (list issue)) (w : world) (ck : checkpoint) :
  load_checkpoint project w = (Ret ck, w) →
  0 ≤ cfg_polite_delay cfg →
  pages ≠ [] →
  Forall (λ records, records ≠ []) pages →
  let latest := fold_left track_update (concat pages) None in
  let cursor := get_start_at ck + Z.of_nat (length (concat pages)) in
  ∃ w', fetch_issues_for_project strftime_ymd today project cfg (served pages) w
        = (Ret (Pending (LoopState cursor 0 latest None)), w') ∧
        load_checkpoint project w'
        = (Ret (Checkpoint (Some cursor) (written_watermark latest ck)), w') ∧
        (∀ i, i ∈ concat pages → wm_le (updated i) latest) ∧
        (latest = None ∨
         ∃ i u, i ∈ concat pages ∧ updated i = Some u ∧ latest = Some u).
Proof.
  intros Hload Hpd Hne Hall latest cursor.
  unfold fetch_issues_for_project. unfold bind at 1. rewrite Hload.
  set (jql := build_jql _ _ _ _ _ _).
  destruct (run_served cfg project jql pages (LoopState (get_start_at ck) 0 None None) w ck)
    as (w' & Hrun & Hload'); [done..|].
  exists w'. split; [exact Hrun|]. split; [|split].
  - rewrite Hload'. by destruct pages.
  - intros i Hi. by apply fold_track_update_ge_updated.
  - destruct (fold_track_update_attained (concat pages) None)
      as [H|(i & u & Hi & Hu & _ & H)]; [by left|right; eauto].
Qed.

End Pages.

Lemma run_adds_up_pages_witness :
  ∃ w', fetch_issues_for_project ymd_of_days 20110 "HADOOP" default_cfg
          (served [three_records; bare_records; two_records]) resumed_store
        = (Ret (Pending (LoopState 57 0 (Some "2025-01-03T17:45:10.000+0000") None)), w') ∧
        load_checkpoint "HADOOP" w'
        = (Ret (Checkpoint (Some 57) (Some "2025-01-03T17:45:10.000+0000")), w').
Proof.
  destruct (run_adds_up_pages ymd_of_days 20110 "HADOOP" default_cfg
              [three_records; bare_records; two_records] resumed_store
              (Checkpoint (Some 50) (Some "2025-01-15T12:34:56.789Z")))
    as (w' & Hrun & Hload & _); [reflexivity|cbn; lia|discriminate| |].
  - repeat constructor; discriminate.
  - exists w'. split; [exact Hrun|exact Hload].
Defined.

(** * Independence: a run depends on the files of its project only *)

Lemma agree_on_refl project w : agree_on project w w.
Proof. by repeat split. Qed.

Lemma agree_on_sym project w1 w2 : agree_on project w1 w2 → agree_on project w2 w1.
Proof. intros (?&?&?). by repeat split. Qed.

Lemma agree_on_trans project w1 w2 w3 :
  agree_on project w1 w2 → agree_on project w2 w3 → agree_on project w1 w3.
Proof.
  intros (H1 & H2 & H3) (H4 & H5 & H6). repeat split; [congruence..|].
  intros s. by rewrite H3.
Qed.

Lemma agree_on_emit project ev w : agree_on project (emit ev w) w.
Proof. by repeat split. Qed.

Lemma agree_on_untouched project q w0 w :
  q ≠ project → others_untouched project w0 w → agree_on q w w0.
Proof. intros Hq H. exact (H q Hq). Qed.

Lemma local_to_ret {A} project (a : A) : local_to project (ret a).
Proof. intros w1 w2 H. by split. Qed.

Lemma local_to_raise {A} project (e : exn) : local_to project (@raise A e).
Proof. intros w1 w2 H. by split. Qed.

Lemma local_to_bind {A B} project (m : M A) (k : A → M B) :
  local_to project m → (∀ a, local_to project (k a)) → local_to project (bind m k).
Proof.
  intros Hm Hk w1 w2 H. destruct (Hm w1 w2 H) as [Hf Ha]. unfold bind.
  destruct (m w1) as [r1 w1'], (m w2) as [r2 w2']; cbn in *. subst r2.
  destruct r1 as [a|e]; [by apply Hk|by split].
Qed.

Lemma local_to_emit project (ev : event) : local_to project (λ w, (Ret tt, emit ev w)).
Proof. intros w1 w2 H. split; [done|]. exact H. Qed.

Lemma local_to_sleep project seconds : local_to project (sleep seconds).
Proof. intros w1 w2 H. unfold sleep. destruct (_ <? 0); by split. Qed.

Lemma local_to_load_checkpoint project : local_to project (load_checkpoint project).
Proof.
  unfold load_checkpoint.
  assert (∀ msg, local_to project (log_error msg)) as Hlog
    by (intros msg; apply local_to_emit).
  apply local_to_bind.
  { intros w1 w2 H. split; [|exact H]. destruct H as (Hj & _).
    unfold read_json; cbn. by rewrite Hj. }
  intros json_file. apply local_to_bind.
  { destruct json_file as [[ck|e]|]; try apply local_to_ret.
    destruct (_ || _); [|apply local_to_raise].
    apply local_to_bind; [apply Hlog|]. intros _. apply local_to_ret. }
  intros [ck|]; [apply local_to_ret|].
  apply local_to_bind.
  { intros w1 w2 H. split; [|exact H]. destruct H as (_ & Ht & _).
    unfold read_legacy; cbn. by rewrite Ht. }
  intros legacy_file. apply local_to_bind.
  { destruct legacy_file as [[n|e]|]; try apply local_to_ret.
    destruct (_ || _); [|apply local_to_raise].
    apply local_to_bind; [apply Hlog|]. intros _. apply local_to_ret. }
  intros [ck|]; apply local_to_ret.
Qed.

Lemma local_to_save_checkpoint project cursor wm :
  local_to project (save_checkpoint project cursor wm).
Proof.
  unfold save_checkpoint. apply local_to_bind.
  { destruct wm; [apply local_to_ret|].
    apply local_to_bind; [apply local_to_load_checkpoint|]. intros ck. apply local_to_ret. }
  intros lu. apply local_to_bind.
  - intros w1 w2 (Hj & Ht & Hr). split; [done|]. unfold agree_on, write_json. cbn.
    repeat split; [by rewrite !lookup_insert_eq, Hj|done..].
  - intros _ w1 w2 (Hj & Ht & Hr). split; [done|]. unfold agree_on, write_legacy. cbn.
    repeat split; [done|by rewrite !lookup_insert_eq|done].
Qed.

Lemma local_to_save_raw_issues project start records :
  local_to project (save_raw_issues project start records).
Proof.
  intros w1 w2 (Hj & Ht & Hr). split; [done|]. unfold agree_on, save_raw_issues. cbn.
  repeat split; [done..|].
  intros s. destruct (decide (s = start)) as [->|Hne].
  - by rewrite !lookup_insert_eq.
  - rewrite !lookup_insert_ne; [done|congruence..].
Qed.

Lemma local_to_check_retries cfg project st : local_to project (check_retries cfg project st).
Proof.
  unfold check_retries. destruct (_ >? _); [|apply local_to_ret].
  apply local_to_bind; [apply local_to_emit|]. intros _. apply local_to_raise.
Qed.

Lemma local_to_on_request_exception cfg project st e :
  local_to project (on_request_exception cfg project st e).
Proof.
  unfold on_request_exception. destruct (_ >=? _).
  - apply local_to_bind; [apply local_to_emit|]. intros _. apply local_to_raise.
  - apply local_to_bind; [apply local_to_sleep|]. intros _. apply local_to_check_retries.
Qed.

Lemma local_to_ingest cfg project st data : local_to project (ingest cfg project st data).
Proof.
  unfold ingest. destruct (default [] (issues data)) as [|i l]; [apply local_to_ret|].
  apply local_to_bind; [apply local_to_save_raw_issues|].
  intros _. apply local_to_bind; [apply local_to_save_checkpoint|].
  intros _. apply local_to_bind; [apply local_to_sleep|].
  intros _. destruct (match _ with Some _ => _ | None => _ end); apply local_to_ret.
Qed.

Lemma local_to_on_reply cfg project st r : local_to project (on_reply cfg project st r).
Proof.
  destruct r as [status data|e]; cbn.
  - destruct (status =? 200); [apply local_to_ingest|].
    destruct (status =? 429).
    { apply local_to_bind; [apply local_to_sleep|]. intros _. apply local_to_check_retries. }
    destruct (_ && _).
    { apply local_to_bind; [apply local_to_sleep|]. intros _. apply local_to_check_retries. }
    apply local_to_bind; [apply local_to_emit|]. intros _.
    destruct (_ && _); [apply local_to_on_request_exception|apply local_to_check_retries].
  - destruct (is_Timeout e).
    { apply local_to_bind; [apply local_to_sleep|]. intros _. apply local_to_check_retries. }
    destruct (is_RequestException e);
      [apply local_to_on_request_exception|apply local_to_raise].
Qed.

Lemma local_to_run cfg project jql remote : ∀ st,
  local_to project (run cfg project jql st remote).
Proof.
  induction remote as [|r remote IH]; intros st; rewrite run_unfold;
    (apply local_to_bind; [apply local_to_emit|]); intros _.
  - apply local_to_ret.
  - apply local_to_bind; [apply local_to_on_reply|].
    intros [st'|]; [apply IH|apply local_to_ret].
Qed.

Lemma local_to_fetch strftime_ymd today project cfg remote :
  local_to project (fetch_issues_for_project strftime_ymd today project cfg remote).
Proof.
  unfold fetch_issues_for_project.
  apply local_to_bind; [apply local_to_load_checkpoint|].
  intros ck. apply local_to_run.
Qed.

Lemma local_run (P : world → Prop) cfg project jql st remote :
  ignores_trace P → ignores_project project P →
  preserves P (run cfg project jql st remote).
Proof.
  intros HT HL w r w' Hrun Hw.
  eapply (run_invariant P (λ _, True)); [done|done| |done|exact Hw|exact Hrun].
  intros st1 data w1 r1 w1' _ Hw1 Hing. split; [|done].
  eapply local_ingest; eauto.
Qed.

Lemma same_files_agree project w0 w : same_files w0 w → agree_on project w w0.
Proof. intros (Hj & Ht & Hr). unfold agree_on. by rewrite Hj, Ht, Hr. Qed.

(** Two worlds that agree on one project and have left all others as they
    were in the same files hold the same files. *)
Lemma same_files_from_parts project w0 w0' wa wb :
  same_files w0 w0' →
  others_untouched project w0 wa →
  others_untouched project w0' wb →
  agree_on project wa wb →
  same_files wa wb.
Proof.
  intros (Hj0 & Ht0 & Hr0) Ha Hb (Hj & Ht & Hr). repeat split.
  - apply map_eq. intros q. destruct (decide (q = project)) as [->|Hq]; [done|].
    destruct (Ha q Hq) as (-> & _), (Hb q Hq) as (-> & _). by rewrite Hj0.
  - apply map_eq. intros q. destruct (decide (q = project)) as [->|Hq]; [done|].
    destruct (Ha q Hq) as (_ & -> & _), (Hb q Hq) as (_ & -> & _). by rewrite Ht0.
  - apply map_eq. intros [q s]. destruct (decide (q = project)) as [->|Hq]; [done|].
    destruct (Ha q Hq) as (_ & _ & ->), (Hb q Hq) as (_ & _ & ->). by rewrite Hr0.
Qed.

(** ** Retries that stay within the budget *)

Lemma run_skips_retries cfg project jql tail : ∀ retries st w,
  0 ≤ cfg_rate_limit_sleep cfg →
  0 ≤ cfg_backoff_base cfg →
  0 ≤ attempt st →
  attempt st + Z.of_nat (length retries) ≤ cfg_max_retries cfg →
  Forall retryable retries →
  ∃ w1, same_files w w1 ∧
        run cfg project jql st (retries ++ tail) w
        = run cfg project jql (with_attempt st (attempt st + Z.of_nat (length retries)))
            tail w1 ∧
        count_requests (trace w1) = (count_requests (trace w) + length retries)%nat ∧
        count_sleeps (trace w1) = (count_sleeps (trace w) + length retries)%nat.
Proof.
  induction retries as [|r retries IH]; intros st w Hrl Hb Ha Hle Hall.
  - exists w. split; [apply same_files_refl|]. split; [|cbn; lia].
    cbn. rewrite Z.add_0_r. by destruct st.
  - apply Forall_cons in Hall as [Hr Hall]. cbn [length] in Hle.
    destruct (on_reply_retryable cfg project st r Hr Hrl Hb Ha) as [seconds Hreply].
    cbn [app]. rewrite (run_retry _ _ _ _ _ _ _ seconds); [|apply Hreply|lia].
    destruct (IH (with_attempt st (attempt st + 1))
                (emit (Sleep seconds)
                   (emit (Request jql (cfg_max_results cfg) (cur_start_at st)) w)))
      as (w1 & Hf & Hrun & Hc & Hs); [done|done|cbn; lia|cbn; lia|done|].
    exists w1. split; [exact Hf|]. split; [|split].
    + rewrite Hrun. f_equal. unfold with_attempt. cbn. f_equal. lia.
    + rewrite Hc, !count_requests_emit. cbn. lia.
    + rewrite Hs, !count_sleeps_emit. cbn. lia.
Qed.

Lemma run_page_ignores_attempt cfg project jql st n data remote :
  run cfg project jql (with_attempt st n) (Response 200 data :: remote)
  = run cfg project jql st (Response 200 data :: remote).
Proof. rewrite !run_unfold. reflexivity. Qed.

Section Transparent.

Variable strftime_ymd : Z → string.

(** X10: failed attempts that stay within the budget leave no mark on the
    outcome.  When up to [max_retries] replies of the kinds 429, 5xx and
    timeout come before a page, the run ends as it would have ended had the
    page come at once, and leaves the same files: the attempt counter
    starts again from zero with every page. *)
Theorem retries_within_budget_are_transparent (today : Z) (project : string) (cfg : config)
    (retries : list reply) (data : page) (remote : list reply) (w : world) :
  0 ≤ cfg_rate_limit_sleep cfg →
  0 ≤ cfg_backoff_base cfg →
  Forall retryable retries →
  Z.of_nat (length retries) ≤ cfg_max_retries cfg →
  let bumpy := fetch_issues_for_project strftime_ymd today project cfg
                 (retries ++ Response 200 data :: remote) w in
  let smooth := fetch_issues_for_project strftime_ymd today project cfg
                  (Response 200 data :: remote) w in
  fst bumpy = fst smooth ∧ same_files (snd smooth) (snd bumpy).
Proof.
  intros Hrl Hb Hall Hlen. cbv zeta. unfold fetch_issues_for_project. unfold bind.
  destruct (load_checkpoint project w) as [[ck|e] w0]; [|split; [done|apply same_files_refl]].
  set (jql := build_jql _ _ _ _ _ _). set (st := LoopState _ 0 None None).
  destruct (run_skips_retries cfg project jql (Response 200 data :: remote) retries st w0)
    as (w1 & Hf & Hrun & _); [done|done|done|cbn; lia|done|].
  rewrite Hrun, run_page_ignores_attempt.
  destruct (local_to_run cfg project jql (Response 200 data :: remote) st w1 w0) as [Hres Hag].
  { by apply same_files_agree. }
  split; [exact Hres|].
  apply (same_files_from_parts project w0 w1); [exact Hf| | |by apply agree_on_sym].
  - eapply (local_run (others_untouched project w0));
      [apply others_untouched_trace|apply others_untouched_project
      |apply surjective_pairing|apply others_untouched_refl].
  - eapply (local_run (others_untouched project w1));
      [apply others_untouched_trace|apply others_untouched_project
      |apply surjective_pairing|apply others_untouched_refl].
Qed.

End Transparent.

Lemma retries_within_budget_are_transparent_witness :
  fst (fetch_issues_for_project ymd_of_days 20110 "HADOOP" default_cfg
         ([Response 429 (Page None Absent); Fails Timeout; Response 503 (Page None Absent)]
          ++ Response 200 (Page (Some three_records) (Given 53))
             :: [Response 500 (Page None Absent)]) resumed_store)
  = fst (fetch_issues_for_project ymd_of_days 20110 "HADOOP" default_cfg
           (Response 200 (Page (Some three_records) (Given 53))
            :: [Response 500 (Page None Absent)]) resumed_store).
Proof.
  apply (retries_within_budget_are_transparent ymd_of_days 20110 "HADOOP" default_cfg
           [Response 429 (Page None Absent); Fails Timeout; Response 503 (Page None Absent)]
           (Page (Some three_records) (Given 53)) [Response 500 (Page None Absent)]
           resumed_store).
  - cbn. lia.
  - cbn. lia.
  - unfold retryable.
    repeat (constructor; [first [ left; by eexists
                                | right; left; eexists _, _; split; [reflexivity|lia]
                                | right; right; reflexivity ]|]).
    constructor.
  - cbn. lia.
Defined.

(** ** The projects of one extraction *)

Lemma fetch_projects_independent strftime_ymd today cfg (w : world) :
  ∀ listed visits n wc m,
  NoDup listed →
  (∀ p, p ∈ listed → agree_on p wc w) →
  fst (fetch_projects strftime_ymd today cfg listed visits n wc) = Ret (Returned m) →
  let w' := snd (fetch_projects strftime_ymd today cfg listed visits n wc) in
  m = n + solo_successes strftime_ymd today cfg w listed visits ∧
  (∀ i p, listed !! i = Some p →
     agree_on p w'
       (snd (fetch_issues_for_project strftime_ymd today p cfg (hd [] (drop i visits)) w))) ∧
  (∀ q, q ∉ listed → agree_on q w' wc).
Proof.
  intros listed.
  induction listed as [|p ps IH]; intros visits n wc m Hnd Hag Hrun; cbv zeta.
  - cbn in Hrun. injection Hrun as <-. split; [cbn; lia|].
    split; [intros i p Hi; by rewrite lookup_nil in Hi|intros; apply agree_on_refl].
  - apply NoDup_cons in Hnd as [Hp Hnd].
    destruct (local_to_fetch strftime_ymd today p cfg (hd [] visits) wc w) as [Hres Hsolo].
    { apply Hag. by left. }
    assert (Hframe : others_untouched p wc
              (snd (fetch_issues_for_project strftime_ymd today p cfg (hd [] visits) wc))).
    { eapply (local_fetch (others_untouched p wc));
        [apply others_untouched_trace|apply others_untouched_project
        |apply surjective_pairing|apply others_untouched_refl]. }
    cbn [fetch_projects solo_successes] in *. rewrite <-Hres.
    destruct (fetch_issues_for_project strftime_ymd today p cfg (hd [] visits) wc)
      as [r w1]. cbn [fst snd] in *.
    assert (Hgo : ∀ n2 w2, agree_on p w2 w1 ∧ (∀ q, q ≠ p → agree_on q w2 w1) →
              fst (fetch_projects strftime_ymd today cfg ps (tl visits) n2 w2)
              = Ret (Returned m) →
              let w' := snd (fetch_projects strftime_ymd today cfg ps (tl visits) n2 w2) in
              m = n2 + solo_successes strftime_ymd today cfg w ps (tl visits) ∧
              (∀ i q, (p :: ps) !! i = Some q →
                 agree_on q w'
                   (snd (fetch_issues_for_project strftime_ymd today q cfg
                           (hd [] (drop i visits)) w))) ∧
              (∀ q, q ∉ p :: ps → agree_on q w' wc)).
    { intros n2 w2 [H2p H2] Hrun2. cbv zeta.
      destruct (IH (tl visits) n2 w2 m Hnd) as (Hm & Hidx & Hout); [|exact Hrun2|].
      { intros q Hq. assert (q ≠ p) by (intros ->; done).
        eapply agree_on_trans; [by apply H2|].
        eapply agree_on_trans; [by apply (agree_on_untouched p q wc w1)|].
        apply Hag. by right. }
      split; [exact Hm|]. split.
      - intros [|i] q Hi; cbn in Hi.
        + injection Hi as <-. cbn [drop].
          eapply agree_on_trans; [by apply Hout|].
          eapply agree_on_trans; [exact H2p|exact Hsolo].
        + replace (drop (S i) visits) with (drop i (tl visits))
            by (destruct visits; cbn; [by rewrite drop_nil|done]).
          by apply Hidx.
      - intros q Hq. apply not_elem_of_cons in Hq as [Hqp Hq].
        eapply agree_on_trans; [by apply Hout|].
        eapply agree_on_trans; [by apply H2|].
        by apply (agree_on_untouched p q wc w1). }
    destruct r as [[|st]|e]; cbn [is_Done].
    + destruct (Hgo (n + 1) w1) as (Hm & Hrest); [|exact Hrun|].
      { split; [apply agree_on_refl|intros; apply agree_on_refl]. }
      split; [lia|exact Hrest].
    + discriminate.
    + destruct (Hgo n (emit (LogError ("Failed fetching project " +:+ p)) w1))
        as (Hm & Hrest); [|exact Hrun|].
      { split; [apply agree_on_emit|intros; apply agree_on_emit]. }
      split; [lia|exact Hrest].
Qed.

(** X11: the projects of one extraction do not interfere.  With no
    project listed twice, when [fetch_all_projects] returns, its count is
    the number of projects whose fetch, run alone on the files found at the
    start, leaves its loop; the files of each project are those that this
    lone run leaves; and the files of a project that is not listed are
    untouched. *)
Theorem projects_do_not_interfere (strftime_ymd : Z → string) (today : Z)
    (cfg : job_config) (visits : list (list reply)) (w : world) (m : Z) :
  let listed := default ["HADOOP"] (projects cfg) in
  let w' := snd (fetch_all_projects strftime_ymd today cfg visits w) in
  NoDup listed →
  fst (fetch_all_projects strftime_ymd today cfg visits w) = Ret (Returned m) →
  m = solo_successes strftime_ymd today (settings cfg) w listed visits ∧
  (∀ i p, listed !! i = Some p →
     agree_on p w'
       (snd (fetch_issues_for_project strftime_ymd today p (settings cfg)
               (hd [] (drop i visits)) w))) ∧
  (∀ q, q ∉ listed → agree_on q w' w).
Proof.
  cbv zeta. intros Hnd Hrun. unfold fetch_all_projects in *.
  destruct (fetch_projects_independent strftime_ymd today (settings cfg) w
              (default ["HADOOP"] (projects cfg)) visits 0 w m Hnd)
    as (Hm & Hrest); [intros; apply agree_on_refl|exact Hrun|].
  split; [lia|exact Hrest].
Qed.

Lemma projects_do_not_interfere_witness :
  1 = solo_successes ymd_of_days 20100 default_cfg resumed_store ["HADOOP"; "SPARK"]
        two_visits ∧
  agree_on "KAFKA" (snd (fetch_all_projects ymd_of_days 20100 two_projects two_visits
                           resumed_store)) resumed_store.
Proof.
  destruct (projects_do_not_interfere ymd_of_days 20100 two_projects two_visits
              resumed_store 1) as (Hm & _ & Hout).
  - compute_done.
  - vm_compute. reflexivity.
  - split; [exact Hm|]. apply Hout. compute_done.
Defined.

(** ** The pipeline *)

(** X12: a configuration without the key [projects].  The extraction
    falls back on the project HADOOP, but [main] reads the same key with
    the empty list as default: every project asked for by name, HADOOP
    too, is refused as not in the configuration before anything is fetched,
    and when the fetch of HADOOP succeeds, the transformation is called
    with no project at all. *)
Theorem main_without_projects_key (strftime_ymd : Z → string)
    (transform_all_projects : list string → M Z) (today : Z) (cfg : job_config)
    (visits : list (list reply)) (w : world) :
  projects cfg = None →
  (∀ run_extract run_transform p, p ≠ EmptyString →
     main strftime_ymd transform_all_projects today run_extract run_transform (Some p)
       cfg visits w
     = (Ret (Returned false), emit (LogError ("Project " +:+ p +:+ " not found in config")) w)) ∧
  (fst (fetch_issues_for_project strftime_ymd today "HADOOP" (settings cfg) (hd [] visits) w)
   = Ret Done →
   main strftime_ymd transform_all_projects today true true None cfg visits w
   = transformed transform_all_projects []
       (snd (fetch_issues_for_project strftime_ymd today "HADOOP" (settings cfg)
               (hd [] visits) w))).
Proof.
  intros Hnone. split.
  - intros run_extract run_transform p Hp. unfold main. rewrite Hnone.
    destruct p as [|c p]; [done|]. cbn [truthy default andb].
    rewrite bool_decide_eq_false_2 by apply not_elem_of_nil. reflexivity.
  - intros Hdone. unfold main, fetch_all_projects. cbn [truthy andb]. cbv zeta.
    rewrite Hnone. cbn [default].
    unfold bind at 1. unfold bind at 1. cbn [fetch_projects].
    destruct (fetch_issues_for_project strftime_ymd today "HADOOP" (settings cfg)
                (hd [] visits) w) as [r w1].
    cbn [fst snd] in *. subst r. reflexivity.
Qed.

Lemma main_without_projects_key_witness :
  main ymd_of_days (λ _, ret 0) 20100 true true (Some "HADOOP")
    (JobConfig default_cfg None) [first_run] resumed_store
  = (Ret (Returned false), emit (LogError "Project HADOOP not found in config") resumed_store).
Proof.
  destruct (main_without_projects_key ymd_of_days (λ _, ret 0) 20100
              (JobConfig default_cfg None) [first_run] resumed_store eq_refl) as [H _].
  apply (H true true "HADOOP"). discriminate.
Defined.

(** X13: one project is enough.  With no project listed twice and an
    extraction that returns, [main] reports a failure without transforming
    anything exactly when no project's fetch, run alone on the files found
    at the start, leaves its loop; otherwise the transformation is handed
    all the listed projects, those whose fetch failed as well, and its
    outcome is the outcome of [main]. *)
Theorem main_needs_one_success (strftime_ymd : Z → string)
    (transform_all_projects : list string → M Z) (today : Z) (cfg : job_config)
    (visits : list (list reply)) (w : world) (m : Z) :
  let listed := default ["HADOOP"] (projects cfg) in
  let extracted := fetch_all_projects strftime_ymd today cfg visits w in
  let ran := main strftime_ymd transform_all_projects today true true None cfg visits w in
  NoDup listed →
  fst extracted = Ret (Returned m) →
  (solo_successes strftime_ymd today (settings cfg) w listed visits = 0 →
   ran = (Ret (Returned false), snd extracted)) ∧
  (solo_successes strftime_ymd today (settings cfg) w listed visits ≠ 0 →
   ran = transformed transform_all_projects (default [] (projects cfg)) (snd extracted)).
Proof.
  cbv zeta. intros Hnd Hrun.
  assert (Hm : m = solo_successes strftime_ymd today (settings cfg) w
                     (default ["HADOOP"] (projects cfg)) visits).
  { unfold fetch_all_projects in Hrun.
    destruct (fetch_projects_independent strftime_ymd today (settings cfg) w
                (default ["HADOOP"] (projects cfg)) visits 0 w m Hnd) as (Hm & _);
      [intros; apply agree_on_refl|exact Hrun|lia]. }
  subst m. unfold main. cbn [truthy andb]. cbv zeta. unfold bind.
  destruct (fetch_all_projects strftime_ymd today cfg visits w) as [r w1].
  cbn [fst snd] in *. subst r. unfold ret at 1. cbv beta iota.
  split; intros H0.
  - rewrite H0. reflexivity.
  - apply Z.eqb_neq in H0. rewrite H0. reflexivity.
Qed.

Lemma main_needs_one_success_witness :
  main ymd_of_days (λ _, ret 0) 20100 true true None two_projects two_visits resumed_store
  = transformed (λ _, ret 0) ["HADOOP"; "SPARK"]
      (snd (fetch_all_projects ymd_of_days 20100 two_projects two_visits resumed_store)).
Proof.
  destruct (main_needs_one_success ymd_of_days (λ _, ret 0) 20100 two_projects two_visits
              resumed_store 1) as [_ H].
  - compute_done.
  - vm_compute. reflexivity.
  - apply H. vm_compute. discriminate.
Defined.

(** ** Cleaning the checkpoints *)

Lemma append_String (c : ascii) (s t : string) : String c s +:+ t = String c (s +:+ t).
Proof. reflexivity. Qed.

Lemma append_Empty (t : string) : EmptyString +:+ t = t.
Proof. reflexivity. Qed.

Lemma prefix_Empty (s : string) : String.prefix EmptyString s = true.
Proof. by destruct s. Qed.

Lemma prefix_needs_dot (p : string) : ∀ e,
  has_char "."%char e = false → String.prefix (p +:+ ".") e = false.
Proof.
  induction p as [|x p IH]; intros [|c e] H; try done.
  - rewrite append_Empty. cbn [String.prefix]. cbn [has_char] in H.
    apply orb_false_iff in H as [H _].
    destruct (ascii_dec "."%char c) as [<-|]; [|done]. by rewrite Ascii.eqb_refl in H.
  - rewrite append_String. cbn [String.prefix]. cbn [has_char] in H.
    apply orb_false_iff in H as [_ H].
    destruct (ascii_dec x c); [by apply IH|done].
Qed.

(** The files that the pattern [<p>.*] finds: those of [p] itself and
    those of the projects whose key starts with [p] and a dot. *)
Lemma prefix_file (p : string) : ∀ q ext,
  has_char "."%char ext = false →
  String.prefix (p +:+ ".") (q +:+ String "."%char ext) = true
  ↔ q = p ∨ String.prefix (p +:+ ".") q = true.
Proof.
  induction p as [|x p IH]; intros [|c q] ext Hext;
    rewrite ?append_String, ?append_Empty; cbn [String.prefix].
  - split; [by left|]. intros _.
    destruct (ascii_dec "."%char "."%char); [by destruct ext|done].
  - destruct (ascii_dec "."%char c);
      [rewrite !prefix_Empty; split; [by right|done]|].
    split; [done|]. by intros [|].
  - destruct (ascii_dec x "."%char); [rewrite prefix_needs_dot by done|];
      (split; [done|by intros [|]]).
  - destruct (ascii_dec x c) as [<-|Hxc].
    + rewrite IH by done. split; (intros [H|H]; [left; congruence|by right]).
    + split; [done|]. intros [[=]|]; [congruence|done].
Qed.

Lemma clean_data_json (sp : option string) (q : string) (w : world) :
  ckpt_json (snd (clean_data sp w)) !! q
  = if cleaned sp q (q +:+ ".json") then None else ckpt_json w !! q.
Proof.
  cbn. destruct (cleaned sp q (q +:+ ".json")) eqn:E.
  - apply map_lookup_filter_None_2. right. intros x _. cbn. by rewrite E.
  - destruct (ckpt_json w !! q) as [x|] eqn:Hq.
    + by apply map_lookup_filter_Some_2.
    + apply map_lookup_filter_None_2. by left.
Qed.

Lemma clean_data_txt (sp : option string) (q : string) (w : world) :
  ckpt_txt (snd (clean_data sp w)) !! q
  = if cleaned sp q (q +:+ ".txt") then None else ckpt_txt w !! q.
Proof.
  cbn. destruct (cleaned sp q (q +:+ ".txt")) eqn:E.
  - apply map_lookup_filter_None_2. right. intros x _. cbn. by rewrite E.
  - destruct (ckpt_txt w !! q) as [x|] eqn:Hq.
    + by apply map_lookup_filter_Some_2.
    + apply map_lookup_filter_None_2. by left.
Qed.

(** X14: [clean_data(p)], for a name [p] free of pattern characters,
    resets the project [p] and, with it, every project whose key starts
    with [p] and a dot: their next [load_checkpoint] gives the zero
    checkpoint.  The checkpoints of all other projects are kept, and so are
    all raw pages, those of [p] too.  (Project keys without ['/'].) *)
Theorem clean_data_resets_project (p q : string) (w : world) :
  glob_safe p = true →
  p ≠ EmptyString →
  has_char "/"%char q = false →
  let w' := snd (clean_data (Some p) w) in
  (q = p ∨ String.prefix (p +:+ ".") q = true →
   load_checkpoint q w' = (Ret zero_checkpoint, w')) ∧
  (q ≠ p → String.prefix (p +:+ ".") q = false →
   ckpt_json w' !! q = ckpt_json w !! q ∧ ckpt_txt w' !! q = ckpt_txt w !! q) ∧
  raw_pages w' = raw_pages w.
Proof.
  intros Hsafe Hp Hq. cbv zeta.
  assert (Hfile : ∀ ext, has_char "."%char ext = false →
            cleaned (Some p) q (q +:+ String "."%char ext)
            = bool_decide (q = p ∨ String.prefix (p +:+ ".") q = true)).
  { intros ext Hext. unfold cleaned. rewrite Hq. cbn [negb andb].
    destruct p as [|c p]; [done|].
    pose proof (prefix_file (String c p) q ext Hext) as Hiff.
    destruct (String.prefix (String c p +:+ ".") (q +:+ String "."%char ext)).
    - symmetry. apply bool_decide_eq_true_2. by apply Hiff.
    - symmetry. apply bool_decide_eq_false_2. intros H. by apply Hiff in H. }
  split; [|split; [|reflexivity]].
  - intros H. apply load_checkpoint_absent.
    + rewrite clean_data_json, (Hfile "json") by done.
      by rewrite bool_decide_eq_true_2.
    + rewrite clean_data_txt, (Hfile "txt") by done.
      by rewrite bool_decide_eq_true_2.
  - intros Hne Hpre.
    assert (¬ (q = p ∨ String.prefix (p +:+ ".") q = true)) as Hnot
      by (intros [|H]; [done|congruence]).
    rewrite clean_data_json, clean_data_txt, (Hfile "json"), (Hfile "txt") by done.
    by rewrite bool_decide_eq_false_2.
Qed.

Lemma clean_data_resets_project_witness :
  load_checkpoint "HADOOP" (snd (clean_data (Some "HADOOP") resumed_store))
  = (Ret zero_checkpoint, snd (clean_data (Some "HADOOP") resumed_store)).
Proof.
  destruct (clean_data_resets_project "HADOOP" "HADOOP" resumed_store) as (H & _).
  - reflexivity.
  - discriminate.
  - reflexivity.
  - apply H. by left.
Defined.

(** X15: [clean_data()] without a project, and with the empty string for
    one, resets every project whose first checkpoint file name does not
    start with a dot: such a project next loads the zero checkpoint.  The
    pattern [*] does not find hidden files, so the checkpoints of a project
    whose key starts with a dot, and those of the empty key ([.json] and
    [.txt]), are kept.  Raw pages are kept in every case.  (Project keys
    without ['/'].) *)
Theorem clean_data_resets_all_but_hidden (specific_project : option string) (q : string)
    (w : world) :
  truthy specific_project = false →
  has_char "/"%char q = false →
  let w' := snd (clean_data specific_project w) in
  (q ≠ EmptyString → String.prefix "." q = false →
   load_checkpoint q w' = (Ret zero_checkpoint, w')) ∧
  (q = EmptyString ∨ String.prefix "." q = true →
   ckpt_json w' !! q = ckpt_json w !! q ∧ ckpt_txt w' !! q = ckpt_txt w !! q) ∧
  raw_pages w' = raw_pages w.
Proof.
  intros Hsp Hq. cbv zeta.
  assert (Hfile : ∀ ext, cleaned specific_project q (q +:+ String "."%char ext)
                         = negb (bool_decide (q = EmptyString) || String.prefix "." q)).
  { intros ext. unfold cleaned. rewrite Hq. cbn [negb andb].
    assert (String.prefix "." (q +:+ String "."%char ext)
            = bool_decide (q = EmptyString) || String.prefix "." q) as ->.
    { destruct q as [|c q]; [rewrite append_Empty; cbn; by destruct ext|].
      rewrite append_String. cbn [String.prefix].
      rewrite bool_decide_eq_false_2 by done.
      destruct (ascii_dec "."%char c); [by rewrite !prefix_Empty|done]. }
    by destruct specific_project as [[|c p]|]. }
  split; [|split; [|reflexivity]].
  - intros Hne Hdot. apply load_checkpoint_absent.
    + rewrite clean_data_json, (Hfile "json"), Hdot. by rewrite bool_decide_eq_false_2.
    + rewrite clean_data_txt, (Hfile "txt"), Hdot. by rewrite bool_decide_eq_false_2.
  - intros H. rewrite clean_data_json, clean_data_txt, (Hfile "json"), (Hfile "txt").
    destruct H as [-> | ->]; [done|]. by rewrite orb_true_r.
Qed.

Lemma clean_data_resets_all_but_hidden_witness :
  load_checkpoint "HADOOP" (snd (clean_data None resumed_store))
  = (Ret zero_checkpoint, snd (clean_data None resumed_store)).
Proof.
  destruct (clean_data_resets_all_but_hidden None "HADOOP" resumed_store) as (H & _).
  - reflexivity.
  - reflexivity.
  - apply H; [discriminate|reflexivity].
Defined.
